(** * Nimbus: event dispatch and plugin execution engine

    A shallow embedding of [nimbus.py] (class [Nimbus]) and of the plugin
    shipped in [plugins/uptime.py], with the properties of the dispatch
    engine stated over it.

    Python objects that the code mutates and shares (the event mappings, the
    response drafts) live in a heap of string-keyed dictionaries; the bot's
    own attributes, the executor's work queue, the messages sent through
    [sc.api_call] and the records written to [log] are fields of one state
    record that every method threads through. *)

From Stdlib Require Import String Ascii List ZArith Bool Lia.
From stdpp Require Import base option gmap strings list fin_maps pretty.
Import ListNotations.

Set Warnings "-register-all".

Local Open Scope string_scope.
Local Open Scope list_scope.

(** ** Python values *)

Module Py.

(** The values an event or a response draft can hold: what [json] decodes
    (numbers kept as integers), plus [VJson v], the [str] that
    [json.dumps v] returns.  The text of that string depends on the
    iteration order of Python 2 dictionaries, which the source does not
    fix, so it is kept as the value it encodes. *)
Inductive value : Type :=
| VNone
| VBool (b : bool)
| VInt (z : Z)
| VStr (s : string)
| VList (l : list value)
| VDict (d : gmap string value)
| VJson (v : value).

(** A dictionary with string keys: an event, a response draft, keyword
    arguments. *)
Abbreviation dict := (gmap string value).

(** [bool(v)]: the truth value Python gives [v] in an [if]. *)
Definition truthy (v : value) : bool :=
  match v with
  | VNone => false
  | VBool b => b
  | VInt z => negb (z =? 0)%Z
  | VStr s => negb (String.eqb s EmptyString)
  | VList l => match l with [] => false | _ => true end
  | VDict d => negb (size d =? 0)%nat
  | VJson _ => true
  end.

(** [v == s] for a string [s]: only a string equals a string, and string
    equality is exact (no case folding, no stripping). *)
Definition eq_str (v : value) (s : string) : bool :=
  match v with
  | VStr s' => String.eqb s' s
  | _ => false
  end.

(** [d.get(k)]: the value under [k], [None] when the key is absent. *)
Definition get (d : dict) (k : string) : value :=
  match d !! k with
  | Some v => v
  | None => VNone
  end.

(** [k in d]. *)
Definition contains (d : dict) (k : string) : bool :=
  match d !! k with
  | Some _ => true
  | None => false
  end.

(** [d.update(other)]: the keys of [other] win. *)
Definition update (d other : dict) : dict := other ∪ d.

(** Exceptions.  [PluginException] stands for every instance of the class
    of that name (and of its subclasses), which is all that
    [isinstance(e, PluginException)] can tell apart. *)
Inductive exn : Type :=
| PluginException (message : string)
| KeyError (key : string)
| TypeError (message : string)
| SystemExit (message : string)
| OtherError (class_name : string) (message : string).


(** [e.message]. *)
Definition message (e : exn) : string :=
  match e with
  | PluginException m => m
  | KeyError k => k
  | TypeError m => m
  | SystemExit m => m
  | OtherError _ m => m
  end.

(** What a call gives back: a value, or a raised exception. *)
Inductive result (A : Type) : Type :=
| Return (a : A)
| Raise (e : exn).
Arguments Return {A} a.
Arguments Raise {A} e.

End Py.

Import Py.

(** ** The state the methods run in *)

(** Dictionaries are objects: two names can denote the same one, and an
    update through one name is seen through the other.  A location names
    one dictionary object. *)
Abbreviation loc := positive.

(** What [log.info] and [log.exception] are given. *)
Inductive log_message : Type :=
| Text (s : string)
| Mapping (d : dict)
| Exc (e : exn).

(** One record of the log: [log.info(m)], or [log.exception(m)], which
    writes [m] at level ERROR together with the traceback. *)
Inductive log_record : Type :=
| Info (m : log_message)
| Exception (m : log_message).

(** One call [self.sc.api_call(method, **kwargs)]. *)
Record api_call : Type := ApiCall {
  api_method : string;
  api_kwargs : dict
}.

(** Everything one call [plugin.on_event(event, response)] does, as a
    function of the two dictionaries it is handed: how it leaves each of
    them (both are mutable and the caller keeps a reference to the draft),
    the calls it makes on the posting interface (as [Uptime.on_command]
    does), and the exception it ends with, if any.  A plugin reaches no
    other dictionary of the heap: the engine hands out no other
    reference. *)
Record reaction : Type := Reaction {
  event_after : dict;
  response_after : dict;
  sent : list api_call;
  raised : option exn
}.

(** Modelled from the spec: plugin.py ([Plugin], [CommandPlugin],
    [PluginException]) is not among the sources.  A plugin instance has the
    string discriminator [event_type] and the reaction [on_event]; a
    command plugin, the only kind for which
    [isinstance(p, CommandPlugin)] holds, has in addition the list
    [triggers] of trigger strings, as [Uptime] sets it.  [class_name] is
    [plugin.__class__.__name__]. *)
Record plugin : Type := Plugin {
  class_name : string;
  event_type : string;
  command_triggers : option (list string);
  on_event : dict -> dict -> reaction
}.

Definition is_CommandPlugin (p : plugin) : bool :=
  match command_triggers p with
  | Some _ => true
  | None => false
  end.

(** [plugin.triggers] of a command plugin. *)
Definition triggers (p : plugin) : list string :=
  match command_triggers p with
  | Some ts => ts
  | None => []
  end.

(** The closure [post_error_response] that [add_future_callback] builds: it
    captures [plugin] and [response], the draft by reference. *)
Record callback : Type := PostErrorResponse {
  cb_plugin : plugin;
  cb_response : loc
}.

(** A unit of work of the executor: [submit(plugin.on_event, event,
    response)] with the callbacks added to it since. *)
Record future : Type := Future {
  fn : plugin;
  arg_event : loc;
  arg_response : loc;
  done_callbacks : list callback
}.

(** The attributes of the bot that [__init__] sets once. *)
Record settings : Type := Settings {
  username : value;
  icon_emoji : value;
  polling_interval : value;
  command_prefix : value;
  debug_mode : value
}.

(** What [__init__] leaves on an instance it builds. *)
Record attributes : Type := Attributes {
  attr_event_type : string;
  attr_triggers : list string;
  attr_on_event : dict -> dict -> reaction
}.

(** A plugin class, as [load_plugins] finds it in a module: its [__name__],
    whether it derives from [CommandPlugin], the numbers of positional
    arguments its [__init__] accepts after [self], and what [__init__]
    does with them: the attributes it sets, or the exception it raises.
    The only argument the engine ever passes is the bot, seen through its
    attributes; the initializer is taken to leave the bot as it is. *)
Record plugin_class : Type := PluginClass {
  cls_name : string;
  cls_is_command : bool;
  cls_accepts : nat -> bool;
  cls_init : list settings -> result attributes
}.

(** One call [klass(args)], for the record: the class and the number of
    arguments it was given. *)
Record construction : Type := Construction {
  con_class : string;
  con_nargs : nat
}.

Record state : Type := State {
  plugins : list plugin;        (* self.plugins *)
  heap : gmap loc dict;         (* the live dictionaries *)
  executor : list future;       (* self.executor: work submitted, oldest first *)
  api_calls : list api_call;    (* calls made on self.sc, oldest first *)
  log : list log_record;        (* records written to log, oldest first *)
  slept : list value;           (* arguments of time.sleep, oldest first *)
  constructions : list construction  (* plugin classes called, oldest first *)
}.

Definition set_plugins (f : list plugin -> list plugin) (st : state) : state :=
  State (f (plugins st)) (heap st) (executor st) (api_calls st) (log st)
        (slept st) (constructions st).
Definition set_heap (f : gmap loc dict -> gmap loc dict) (st : state) : state :=
  State (plugins st) (f (heap st)) (executor st) (api_calls st) (log st)
        (slept st) (constructions st).
Definition set_executor (f : list future -> list future) (st : state) : state :=
  State (plugins st) (heap st) (f (executor st)) (api_calls st) (log st)
        (slept st) (constructions st).
Definition set_log (f : list log_record -> list log_record) (st : state) : state :=
  State (plugins st) (heap st) (executor st) (api_calls st) (f (log st))
        (slept st) (constructions st).
Definition set_slept (f : list value -> list value) (st : state) : state :=
  State (plugins st) (heap st) (executor st) (api_calls st) (log st)
        (f (slept st)) (constructions st).
Definition set_constructions (f : list construction -> list construction)
    (st : state) : state :=
  State (plugins st) (heap st) (executor st) (api_calls st) (log st)
        (slept st) (f (constructions st)).

(** The state [__init__] starts from. *)
Definition initial : state := State [] ∅ [] [] [] [] [].

(** ** Statements: state passing with exceptions *)

(** A statement runs in a state and leaves a state; it returns a value or
    raises, and what it did before raising stays done. *)
Definition M (A : Type) : Type := state -> result A * state.

Definition ret {A} (a : A) : M A := fun st => (Return a, st).
Definition raise {A} (e : exn) : M A := fun st => (Raise e, st).
Definition bind {A B} (c : M A) (k : A -> M B) : M B :=
  fun st =>
    match c st with
    | (Return a, st') => k a st'
    | (Raise e, st') => (Raise e, st')
    end.

Notation "x <- c ;; k" := (bind c (fun x => k))
  (at level 100, c at next level, right associativity).
Notation "c ;;; k" := (bind c (fun _ => k))
  (at level 100, right associativity).

Definition modify (f : state -> state) : M unit := fun st => (Return tt, f st).
Definition gets {A} (f : state -> A) : M A := fun st => (Return (f st), st).

(** [for x in l: body(x)]: the first exception ends the loop. *)
Fixpoint for_each {A} (l : list A) (body : A -> M unit) : M unit :=
  match l with
  | [] => ret tt
  | x :: l' => body x ;;; for_each l' body
  end.

(** [filter(pred, l)] of Python 2: eager, it returns the list of the
    elements that pass, and calls [pred] on every element, in order,
    before it returns. *)
Fixpoint py_filter {A} (pred : A -> M bool) (l : list A) : M (list A) :=
  match l with
  | [] => ret []
  | x :: l' =>
      b <- pred x ;;
      rest <- py_filter pred l' ;;
      ret (if b then x :: rest else rest)
  end.

(** A new dictionary object holding [d]. *)
Definition alloc (d : dict) : M loc :=
  fun st =>
    let l := fresh (dom (heap st)) in
    (Return l, set_heap (insert l d) st).

(** The dictionary a reference denotes.  A Python reference always denotes
    a live object; the exception is the answer of the model to a location
    that holds nothing, which no run of the bot produces. *)
Definition deref (l : loc) : M dict :=
  fun st =>
    match heap st !! l with
    | Some d => (Return d, st)
    | None => (Raise (OtherError "ReferenceError" "no such object"), st)
    end.

(** [d[k]]. *)
Definition getitem (d : dict) (k : string) : M value :=
  match d !! k with
  | Some v => ret v
  | None => raise (KeyError k)
  end.

Definition log_info (m : log_message) : M unit :=
  modify (set_log (fun l => l ++ [Info m])).
Definition log_exception (m : log_message) : M unit :=
  modify (set_log (fun l => l ++ [Exception m])).


(** [heap[l] = d]: the object at [l] now holds [d]. *)
Definition store (l : loc) (d : dict) : M unit :=
  modify (set_heap (insert l d)).

(** [time.sleep(t)]. *)
Definition time_sleep (t : value) : M unit :=
  modify (set_slept (fun l => l ++ [t])).

(** [executor.submit(plugin.on_event, event, response)]: the work is
    queued and the call returns its future, named by its place in the
    queue. *)
Definition submit (p : plugin) (event response : loc) : M nat :=
  fun st =>
    (Return (length (executor st)),
     set_executor (fun q => q ++ [Future p event response []]) st).

(** [future.add_done_callback(cb)] on a future that has not run yet. *)
Definition add_done_callback (fut : nat) (cb : callback) : M unit :=
  modify (set_executor
    (alter (fun f => Future (fn f) (arg_event f) (arg_response f)
                            (done_callbacks f ++ [cb])) fut)).

(** [klass(arg, ...)] as a value: Python raises [TypeError] without
    entering [__init__] when the number of arguments is not one it accepts;
    the instance is of class [klass], a [CommandPlugin] when [klass]
    derives from it. *)
Definition construct (klass : plugin_class) (args : list settings) : result plugin :=
  if cls_accepts klass (length args) then
    match cls_init klass args with
    | Return a =>
        Return (Plugin (cls_name klass) (attr_event_type a)
                  (if cls_is_command klass then Some (attr_triggers a) else None)
                  (attr_on_event a))
    | Raise e => Raise e
    end
  else Raise (TypeError "__init__() takes a different number of arguments").

(** The call [klass(arg, ...)], which goes on record. *)
Definition instantiate (klass : plugin_class) (args : list settings) : M plugin :=
  modify (set_constructions
    (fun l => l ++ [Construction (cls_name klass) (length args)])) ;;;
  match construct klass args with
  | Return p => ret p
  | Raise e => raise e
  end.

(** [try: body except: handler]: a bare [except] catches every exception. *)
Definition try_except {A} (body : M A) (handler : M A) : M A :=
  fun st =>
    match body st with
    | (Return a, st') => (Return a, st')
    | (Raise _, st') => handler st'
    end.

(** ** [os.path.splitext] *)

(** The index of the last ["."] of [s], counting from [i]. *)
Fixpoint rfind_dot (s : string) (i : nat) : option nat :=
  match s with
  | EmptyString => None
  | String c s' =>
      match rfind_dot s' (S i) with
      | Some j => Some j
      | None => if Ascii.eqb c "."%char then Some i else None
      end
  end.

(** Whether [s] has a character other than ["."] among its first [n]. *)
Fixpoint has_non_dot (s : string) (n : nat) : bool :=
  match n, s with
  | S n', String c s' => if Ascii.eqb c "."%char then has_non_dot s' n' else true
  | _, _ => false
  end.

(** [os.path.splitext(f)] for a file name without directory part: the
    extension starts at the last dot, unless only dots come before it. *)
Definition splitext (f : string) : string * string :=
  match rfind_dot f 0 with
  | Some j =>
      if has_non_dot f j
      then (substring 0 j f, substring j (String.length f - j) f)
      else (f, EmptyString)
  | None => (f, EmptyString)
  end.

(** ** The bot *)

(** A member of an imported module, as [inspect.getmembers] lists it:
    a plugin class (a class deriving from [Plugin]) with its [__module__],
    another class, or something that is not a class. *)
Inductive member : Type :=
| AClass (module : string) (c : plugin_class)
| OtherClass (module : string)
| NotAClass.

(** What the bot finds around it when it starts. *)
Record environment : Type := Environment {
  config_file : string -> option dict;   (* None: the file cannot be opened *)
  rtm_connect : bool;
  isdir : string -> bool;
  exists_ : string -> bool;
  listdir : string -> list string;
  import_module : string -> result (list (string * member))
}.

Module Nimbus.

Section Methods.

Variable env : environment.
Variable self : settings.
Variable plugin_directory : string.


Definition add_future_callback (fut : nat) (p : plugin) (response : loc)
    : M unit :=
  add_done_callback fut (PostErrorResponse p response).

(** The body of [for plugin in filter(...)] in [process_event]. *)
Definition invoke (event : loc) (p : plugin) : M unit :=
  response <- alloc {[ "username" := username self;
                       "icon_emoji" := icon_emoji self ]} ;;
  e <- deref event ;;
  (if contains e "channel"
   then c <- getitem e "channel" ;;
        r <- deref response ;;
        store response (update r {[ "channel" := c ]})
   else ret tt) ;;;
  e <- deref event ;;
  copy <- alloc e ;;
  fut <- submit p copy response ;;
  add_future_callback fut p response.

(** [lambda p: p.event_type == event['type']]. *)
Definition matches (event : loc) (p : plugin) : M bool :=
  e <- deref event ;;
  ty <- getitem e "type" ;;
  ret (eq_str ty (event_type p)).

Definition process_event (event : loc) : M unit :=
  (if truthy (debug_mode self)
   then e <- deref event ;; log_info (Mapping e)
   else ret tt) ;;;
  all <- gets plugins ;;
  matching <- py_filter (matches event) all ;;
  for_each matching (invoke event).

(** The body of [for event in events] in [run]. *)
Definition run_event (event : loc) : M unit :=
  e <- deref event ;;
  if eq_str (get e "subtype") "bot_message" then ret tt
  else
    e <- deref event ;;
    if truthy (get e "hidden") then ret tt
    else process_event event.

(** [self.sc.rtm_read()]: the events received since the last call, each a
    new dictionary. *)
Fixpoint rtm_read (received : list dict) : M (list loc) :=
  match received with
  | [] => ret []
  | d :: rest =>
      l <- alloc d ;;
      ls <- rtm_read rest ;;
      ret (l :: ls)
  end.

(** [while True] of [run], over the batches that [rtm_read] delivers: the
    loop has no exit of its own, so [Return] means that every batch given
    was handled and the loop is polling for the next one, and [Raise] that
    an exception ended it. *)
Fixpoint run_loop (polled : list (list dict)) : M unit :=
  match polled with
  | [] => ret tt
  | received :: later =>
      events <- rtm_read received ;;
      for_each events run_event ;;;
      time_sleep (polling_interval self) ;;;
      run_loop later
  end.

Definition run (polled : list (list dict)) : M unit :=
  log_info (Text "Starting bot loop...") ;;;
  run_loop polled.

Definition register_plugin (klass : plugin_class) : M bool :=
  try_except
    (p <- instantiate klass [self] ;;
     modify (set_plugins (fun l => l ++ [p])) ;;;
     log_info (Text ("Successfully loaded plugin '" +:+ cls_name klass +:+ "'")) ;;;
     ret true)
    (log_exception
       (Text ("Error loading plugin " +:+ cls_name klass +:+ "! Skipping...")) ;;;
     ret false).

(** [class_filter], on the members of the module [module_path]. *)
Definition class_filter (module_path : string) (m : member) : bool :=
  match m with
  | AClass md _ => String.eqb md module_path
  | OtherClass _ => false
  | NotAClass => false
  end.

(** [for name, klass in classes], with the counter [num_plugins]. *)
Fixpoint register_classes (classes : list (string * member)) (num_plugins : nat)
    : M nat :=
  match classes with
  | [] => ret num_plugins
  | (_, AClass _ klass) :: rest =>
      ok <- register_plugin klass ;;
      register_classes rest (if ok then num_plugins + 1 else num_plugins)
  | _ :: rest => register_classes rest num_plugins
  end.

(** [for f in os.listdir(self.plugin_directory)], with the counter. *)
Fixpoint load_files (files : list string) (num_plugins : nat) : M nat :=
  match files with
  | [] => ret num_plugins
  | f :: rest =>
      let '(module_name, extension) := splitext f in
      if String.eqb extension ".py" then
        let module_path := plugin_directory +:+ "." +:+ module_name in
        match import_module env module_path with
        | Return members =>
            let classes := List.filter (fun nm => class_filter module_path nm.2) members in
            n <- register_classes classes num_plugins ;;
            load_files rest n
        | Raise e => raise e
        end
      else load_files rest num_plugins
  end.

Definition load_plugins : M unit :=
  log_info (Text ("Loading plugins from directory '" +:+ plugin_directory +:+ "'...")) ;;;
  num_plugins <- load_files (listdir env plugin_directory) 0 ;;
  log_info (Text ("Loaded " +:+ pretty num_plugins +:+ " plugins!")).

(** The first command plugin, in the order of the collection, one of whose
    triggers is [trigger]; [None] when the loops end without a [return]. *)
Fixpoint first_trigger (trigger : string) (p : plugin) (trigs : list string)
    : option plugin :=
  match trigs with
  | [] => None
  | trig :: rest =>
      if String.eqb trigger trig then Some p
      else first_trigger trigger p rest
  end.

Fixpoint get_command_from (trigger : string) (commands : list plugin)
    : option plugin :=
  match commands with
  | [] => None
  | p :: rest =>
      match first_trigger trigger p (triggers p) with
      | Some found => Some found
      | None => get_command_from trigger rest
      end
  end.

Definition get_command (trigger : string) : M (option plugin) :=
  all <- gets plugins ;;
  ret (get_command_from trigger (List.filter is_CommandPlugin all)).


End Methods.

(** [config.get(k, default)]. *)
Definition get_default (d : dict) (k : string) (default : value) : value :=
  match d !! k with
  | Some v => v
  | None => default
  end.

Definition get_config (env : environment) (filename : string) : M dict :=
  match config_file env filename with
  | Some config => ret config
  | None => raise (SystemExit "Couldn't open configuration file")
  end.

(** [Nimbus(config_name)]: the constructor, which ends by loading the
    plugins; it returns the attributes of the new bot. *)
Definition init (env : environment) (config_name : string) : M settings :=
  log_info (Text "Initializing Nimbus instance...") ;;;
  config <- get_config env config_name ;;
  icon <- match get_default config "icon_emoji" (VStr "cloud") with
          | VStr s => ret (VStr (":" +:+ s +:+ ":"))
          | _ => raise (TypeError "cannot concatenate 'str' and another object")
          end ;;
  let self :=
    Settings (get_default config "username" (VStr "nimbus")) icon
             (get_default config "polling_interval" (VInt 1))
             (get_default config "command_prefix" (VStr "!"))
             (get_default config "debug_mode" (VBool false)) in
  modify (set_executor (fun _ => [])) ;;;
  modify (set_plugins (fun _ => [])) ;;;
  if negb (truthy (get config "token"))
  then raise (SystemExit "Need an authorization token.")
  else if negb (rtm_connect env)
  then raise (SystemExit "Can't connect to Slack.")
  else
    log_info (Text "Successfully authenticated with Slack!") ;;;
    match get_default config "plugin_directory" (VStr "plugins") with
    | VStr plugin_directory =>
        if negb (isdir env plugin_directory)
        then raise (SystemExit "The specified plugin directory is not a directory!")
        else if negb (exists_ env plugin_directory)
        then raise (SystemExit "The specified plugin directory does not exist!")
        else
          (if truthy (debug_mode self)
           then log_info (Text "Debug mode is enabled!")
           else ret tt) ;;;
          load_plugins env self plugin_directory ;;;
          ret self
    | _ => raise (TypeError "the plugin directory is not a string")
    end.


End Nimbus.

(** ** plugins/uptime.py *)

Module Uptime.

(** [Uptime.on_command(bot, event, response)]; [uptime] is the text of the
    time elapsed since [bot.start_time]. *)
Definition on_command (uptime : string) (event response : dict) : reaction :=
  match event !! "text" with
  | None => Reaction event response [] (Some (KeyError "text"))
  | Some args =>
      if negb (truthy args) then
        let response' :=
          update response
            {[ "text" := VStr ("Bot Uptime: `" +:+ uptime +:+ "`");
               "mrkdwn_in" := VList [VStr "text"] ]} in
        Reaction event response' [ApiCall "chat.postMessage" response'] None
      else Reaction event response [] None
  end.

(** The class [Uptime(CommandPlugin)].  Its [__init__(self)] takes no
    argument after [self]; it calls [CommandPlugin.__init__(self)] and sets
    its triggers.  What it takes from [CommandPlugin], which is not among
    the sources, is a parameter here: the exception the initializer of the
    base class raises when called so, if any, and the [event_type] and
    [on_event] an instance inherits. *)
Definition class (inherited_init : option exn) (inherited_event_type : string)
    (inherited_on_event : dict -> dict -> reaction) : plugin_class :=
  PluginClass "Uptime" true (fun n => Nat.eqb n 0)
    (fun _ =>
       match inherited_init with
       | Some e => Raise e
       | None =>
           Return (Attributes inherited_event_type ["uptime"] inherited_on_event)
       end).

End Uptime.

(** ** Reference definitions used in the statements *)

Module Spec.

(** The response draft of an invocation for the event [e]: the identity of
    the bot and, when the event has one, its channel. *)
Definition draft (self : settings) (e : dict) : dict :=
  let identity : dict :=
    {[ "username" := username self; "icon_emoji" := icon_emoji self ]} in
  match e !! "channel" with
  | Some c => <[ "channel" := c ]> identity
  | None => identity
  end.


(** The plugin classes among the members [getmembers] returns. *)
Fixpoint classes_of (members : list (string * member)) : list plugin_class :=
  match members with
  | [] => []
  | (_, AClass _ klass) :: rest => klass :: classes_of rest
  | _ :: rest => classes_of rest
  end.

(** The plugin classes [load_plugins] discovers in the files [files] of the
    directory, in the order it meets them, up to the first module whose
    import raises. *)
Fixpoint discovered (env : environment) (plugin_directory : string)
    (files : list string) : list plugin_class :=
  match files with
  | [] => []
  | f :: rest =>
      if String.eqb (splitext f).2 ".py" then
        let module_path := plugin_directory +:+ "." +:+ (splitext f).1 in
        match import_module env module_path with
        | Return members =>
            classes_of (List.filter
              (fun nm => Nimbus.class_filter module_path nm.2) members)
            ++ discovered env plugin_directory rest
        | Raise _ => []
        end
      else discovered env plugin_directory rest
  end.

(** Whether every module of [files] imports. *)
Fixpoint imports (env : environment) (plugin_directory : string)
    (files : list string) : bool :=
  match files with
  | [] => true
  | f :: rest =>
      if String.eqb (splitext f).2 ".py" then
        match import_module env (plugin_directory +:+ "." +:+ (splitext f).1) with
        | Return _ => imports env plugin_directory rest
        | Raise _ => false
        end
      else imports env plugin_directory rest
  end.

(** The instances of the classes of [classes] that the bot [self] can
    build, in order. *)
Definition loaded (self : settings) (classes : list plugin_class) : list plugin :=
  omap (fun klass => match construct klass [self] with
                     | Return p => Some p
                     | Raise _ => None
                     end) classes.

(** The record of [klass(bot)], the call [register_plugin] makes. *)
Definition called_with_bot (klass : plugin_class) : construction :=
  Construction (cls_name klass) 1.

(** The event a plugin is invoked for, and the plugin: one dispatch
    decision, read off a unit of work in the state [st]. *)
Definition decision (st : state) (f : future) : option dict * plugin :=
  (heap st !! arg_event f, fn f).

(** The state one pass of the loop body of [process_event] leaves, for the
    event [e] and the plugin [p]: a new draft, a new copy of the event, and
    one more unit of work with its callback. *)
Definition invoked (self : settings) (e : dict) (st : state) (p : plugin) : state :=
  let response := fresh (dom (heap st)) in
  let h := <[response := draft self e]> (heap st) in
  let copy := fresh (dom h) in
  State (plugins st) (<[copy := e]> h)
        (executor st ++ [Future p copy response [PostErrorResponse p response]])
        (api_calls st) (log st) (slept st) (constructions st).

(** The state after the first statement of [process_event]. *)
Definition debugged (self : settings) (e : dict) (st : state) : state :=
  if truthy (debug_mode self)
  then set_log (fun l => l ++ [Info (Mapping e)]) st
  else st.

(** The plugins of [ps] that react to events of type [ty]. *)
Definition reacting (ty : value) (ps : list plugin) : list plugin :=
  List.filter (fun p => eq_str ty (event_type p)) ps.

(** The dictionary objects a unit of work was given. *)
Definition objects (f : future) : list loc := [arg_response f; arg_event f].

(** The unit of work [f], found in the state [after], was made for the
    event [e] since the state [before]: its draft and its copy of the event
    are objects that did not exist in [before], the draft is the one of
    [e], the copy holds [e], and its callback reports for its own plugin on
    its own draft. *)
Definition serves (self : settings) (e : dict) (before after : state)
    (f : future) : Prop :=
  heap after !! arg_response f = Some (draft self e)
  /\ heap after !! arg_event f = Some e
  /\ done_callbacks f = [PostErrorResponse (fn f) (arg_response f)]
  /\ (arg_response f ∉ dom (heap before))
  /\ (arg_event f ∉ dom (heap before))
  /\ arg_response f ≠ arg_event f.

(** Whether the loop of [run] lets the event [e] through to
    [process_event]. *)
Definition survives (e : dict) : bool :=
  negb (eq_str (get e "subtype") "bot_message") && negb (truthy (get e "hidden")).

(** What the loop of [run] decides for the event [e] when the collection is
    [ps]: the plugins to invoke, and the exception that ends the loop, if
    any. *)
Definition handled (ps : list plugin) (e : dict) : list plugin * option exn :=
  if survives e then
    match e !! "type" with
    | Some ty => (reacting ty ps, None)
    | None => ([], match ps with [] => None | _ => Some (KeyError "type") end)
    end
  else ([], None).

(** The decisions for the events of one batch, in order, up to the first
    exception. *)
Fixpoint batch_plan (ps : list plugin) (batch : list dict)
    : list (dict * plugin) * option exn :=
  match batch with
  | [] => ([], None)
  | e :: rest =>
      match (handled ps e).2 with
      | Some x => (map (pair e) (handled ps e).1, Some x)
      | None =>
          (map (pair e) (handled ps e).1 ++ (batch_plan ps rest).1,
           (batch_plan ps rest).2)
      end
  end.

(** The decisions for the batches polled, in order, up to the first
    exception. *)
Fixpoint plan (ps : list plugin) (polled : list (list dict))
    : list (dict * plugin) * option exn :=
  match polled with
  | [] => ([], None)
  | batch :: later =>
      match (batch_plan ps batch).2 with
      | Some x => ((batch_plan ps batch).1, Some x)
      | None => ((batch_plan ps batch).1 ++ (plan ps later).1, (plan ps later).2)
      end
  end.

(** How a loop that met the exception [x], or none, ends. *)
Definition outcome (x : option exn) : result unit :=
  match x with
  | Some e => Raise e
  | None => Return tt
  end.

(** The unit of work [f], in the state [st], stands for the decision [d]:
    its plugin is the one decided and its copy of the event holds the event
    decided. *)
Definition decided (st : state) (f : future) (d : dict * plugin) : Prop :=
  heap st !! arg_event f = Some d.1 /\ fn f = d.2.

(** From [before] to [after] the executor was given one unit of work for
    each decision of [ds], in order, and nothing else; no object of
    [before] was touched, and the collection is the same. *)
Definition advances (before after : state) (ds : list (dict * plugin)) : Prop :=
  exists new,
    executor after = executor before ++ new
    /\ Forall2 (decided after) new ds
    /\ heap before ⊆ heap after
    /\ plugins after = plugins before
    /\ constructions after = constructions before.

(** The units of work submitted between the state [before] and the state
    [after]. *)
Definition submitted (before after : state) : list future :=
  drop (length (executor before)) (executor after).

End Spec.

(** ** Sample plugins, events and states *)

Module Example.

(** A bot with the default settings. *)
Definition bot : settings :=
  Settings (VStr "nimbus") (VStr ":cloud:") (VInt 1) (VStr "!") (VBool false).

(** A bot with another name, in debug mode. *)
Definition verbose_bot : settings :=
  Settings (VStr "stratus") (VStr ":fog:") (VInt 5) (VStr "?") (VBool true).

(** A call that does nothing. *)
Definition quiet (event response : dict) : reaction :=
  Reaction event response [] None.



Definition echo : plugin := Plugin "Echo" "message" None quiet.
Definition reactions : plugin := Plugin "Reactions" "reaction_added" None quiet.

(** Two command plugins that both answer to ["uptime"]. *)
Definition uptime : plugin := Plugin "Uptime" "message" (Some ["uptime"]) quiet.

Definition message : dict :=
  {[ "type" := VStr "message"; "channel" := VStr "C1"; "text" := VStr "!uptime" ]}.


Definition from_bot : dict := <[ "subtype" := VStr "bot_message" ]> message.

Definition edited : dict := <[ "hidden" := VBool true ]> message.

(** A bot that holds the plugins [ps] and one live event [e], at the
    location [1]. *)
Definition holding (ps : list plugin) (e : dict) : state :=
  set_heap (insert 1%positive e) (set_plugins (fun _ => ps) initial).


(** The class of plugins/uptime.py, taking for what it inherits an
    initializer that returns, the event type ["message"] and a reaction
    that does nothing. *)
Definition uptime_class : plugin_class := Uptime.class None "message" quiet.

(** A plugin class written for the engine: its initializer takes the bot. *)
Definition echo_class : plugin_class :=
  PluginClass "Echo" false (fun n => Nat.eqb n 1)
    (fun _ => Return (Attributes "message" [] quiet)).

(** A plugin class whose initializer takes the bot and fails. *)
Definition broken_class : plugin_class :=
  PluginClass "Broken" false (fun n => Nat.eqb n 1)
    (fun _ => Raise (OtherError "ValueError" "bad settings")).

(** A start-up with a token, a connection, and a directory [plugins] that
    holds uptime.py and a README. *)
Definition env : environment :=
  Environment (fun _ => Some {[ "token" := VStr "xoxb" ]}) true
    (fun _ => true) (fun _ => true)
    (fun _ => ["uptime.py"; "README"])
    (fun module_path =>
       Return [("Uptime", AClass module_path uptime_class);
               ("datetime", NotAClass)]).

(** The same with a directory that holds three plugins written for the
    engine, the second of which fails to build. *)
Definition env3 : environment :=
  Environment (fun _ => Some {[ "token" := VStr "xoxb" ]}) true
    (fun _ => true) (fun _ => true)
    (fun _ => ["echo.py"])
    (fun module_path =>
       Return [("A", AClass module_path echo_class);
               ("B", AClass module_path broken_class);
               ("C", AClass module_path echo_class)]).

End Example.

(** ** Reference definitions for the rest of the code *)

Module More.

(** The settings [__init__] reads off the configuration [config] whose
    [icon_emoji] is the string [icon], or is missing with [icon] the default
    ["cloud"]. *)
Definition configured (config : dict) (icon : string) : settings :=
  Settings (Nimbus.get_default config "username" (VStr "nimbus"))
           (VStr (":" +:+ icon +:+ ":"))
           (Nimbus.get_default config "polling_interval" (VInt 1))
           (Nimbus.get_default config "command_prefix" (VStr "!"))
           (Nimbus.get_default config "debug_mode" (VBool false)).

(** The environment [env] with another answer of [os.path.exists]. *)
Definition with_exists (env : environment) (answer : string -> bool)
    : environment :=
  Environment (config_file env) (rtm_connect env) (isdir env) answer
              (listdir env) (import_module env).

(** Whether [load_plugins] takes the file [f] for a module. *)
Definition is_py (f : string) : bool := String.eqb (splitext f).2 ".py".

(** Whether [s] has no ["."]. *)
Fixpoint dotless (s : string) : bool :=
  match s with
  | EmptyString => true
  | String c s' => negb (Ascii.eqb c "."%char) && dotless s'
  end.

(** The record [register_plugin] writes to the log for the class [klass]. *)
Definition load_record (self : settings) (klass : plugin_class) : log_record :=
  match construct klass [self] with
  | Return _ =>
      Info (Text ("Successfully loaded plugin '" +:+ cls_name klass +:+ "'"))
  | Raise _ =>
      Exception (Text ("Error loading plugin " +:+ cls_name klass +:+ "! Skipping..."))
  end.



(** What [process_event] writes to the log for the event [e]. *)
Definition debug_record (self : settings) (e : dict) : list log_record :=
  if truthy (debug_mode self) then [Info (Mapping e)] else [].


(** A configuration whose [icon_emoji] is a number. *)
Definition env_numeric_icon : environment :=
  Environment
    (fun _ => Some {[ "token" := VStr "xoxb"; "icon_emoji" := VInt 3 ]}) true
    (fun _ => true) (fun _ => true) (fun _ => []) (fun _ => Return []).

(** A file system with one directory, [plugins], and one file, while the
    configuration names a directory [missing]. *)
Definition env_missing_directory : environment :=
  Environment
    (fun _ => Some {[ "token" := VStr "xoxb";
                      "plugin_directory" := VStr "missing" ]}) true
    (String.eqb "plugins")
    (fun d => String.eqb "plugins" d || String.eqb "nimbus.yml" d)
    (fun _ => []) (fun _ => Return []).

End More.

(** ** Running statements *)

Section Running.

Context {A B : Type}.

Lemma bind_Return (c : M A) (k : A -> M B) st a st' :
  c st = (Return a, st') -> bind c k st = k a st'.
Proof. intros H. unfold bind. by rewrite H. Qed.

Lemma bind_Raise (c : M A) (k : A -> M B) st e st' :
  c st = (Raise e, st') -> bind c k st = (Raise e, st').
Proof. intros H. unfold bind. by rewrite H. Qed.

Lemma deref_live l (d : dict) st :
  heap st !! l = Some d -> deref l st = (Return d, st).
Proof. intros H. unfold deref. by rewrite H. Qed.

End Running.

(** Run the first statement of a sequence, given what it returns. *)
Tactic Notation "returns" uconstr(H) := rewrite (bind_Return _ _ _ _ _ H).

(** Run a first statement that reads a live object. *)
Tactic Notation "reads" uconstr(H) :=
  rewrite (bind_Return _ _ _ _ _ (deref_live _ _ _ H)).

(** ** Dispatch of one event *)

Section Dispatch.

Variable self : settings.

Lemma fresh_ne (h : gmap loc dict) (l : loc) (d : dict) :
  h !! l = Some d -> fresh (dom h) ≠ l.
Proof.
  intros H <-. apply (is_fresh (dom h)). apply elem_of_dom. by exists d.
Qed.

Lemma invoke_invoked (event : loc) (e : dict) (p : plugin) (st : state) :
  heap st !! event = Some e ->
  Nimbus.invoke self event p st = (Return tt, Spec.invoked self e st p).
Proof.
  intros Hev. unfold Nimbus.invoke, Spec.invoked.
  pose proof (fresh_ne _ _ _ Hev) as Hne.
  set (r := fresh (dom (heap st))) in *.
  unfold bind at 1. cbn [alloc]. fold r.
  set (identity := ({[ "username" := username self;
                       "icon_emoji" := icon_emoji self ]} : dict)).
  assert (Hstep : forall (d : dict) (st1 : state),
    heap st1 = <[r := d]> (heap st) ->
    deref event st1 = (Return e, st1)).
  { intros d st1 H1. apply deref_live. rewrite H1.
    by rewrite lookup_insert_ne. }
  erewrite bind_Return; [|by apply (Hstep identity)].
  assert (Hdraft :
    (if contains e "channel"
     then c <- getitem e "channel" ;;
          r0 <- deref r ;;
          store r (update r0 {[ "channel" := c ]})
     else ret tt) (set_heap <[r := identity]> st)
    = (Return tt, set_heap <[r := Spec.draft self e]> st)).
  { unfold contains, getitem, Spec.draft. fold identity.
    destruct (e !! "channel") as [c|]; [|reflexivity].
    unfold bind, ret, deref, store, modify, set_heap; cbn.
    rewrite lookup_insert_eq. cbn.
    rewrite insert_insert_eq. unfold update.
    by rewrite <- insert_union_singleton_l. }
  returns Hdraft.
  erewrite bind_Return; [|by apply (Hstep (Spec.draft self e))].
  unfold bind, alloc, submit, Nimbus.add_future_callback, add_done_callback,
    modify, set_executor, set_heap; cbn.
  f_equal. f_equal.
  rewrite alter_app_r_alt by lia.
  by rewrite Nat.sub_diag.
Qed.

(** The event object outlives the pass: the objects made are new. *)
Lemma invoked_heap (e : dict) (p : plugin) (st : state) :
  heap st ⊆ heap (Spec.invoked self e st p).
Proof.
  unfold Spec.invoked; cbn.
  set (r := fresh (dom (heap st))).
  set (h := <[r := Spec.draft self e]> (heap st)).
  transitivity h.
  - apply insert_subseteq, not_elem_of_dom, is_fresh.
  - apply insert_subseteq, not_elem_of_dom, is_fresh.
Qed.

Lemma for_each_invoke (event : loc) (e : dict) (l : list plugin) :
  forall st, heap st !! event = Some e ->
  for_each l (Nimbus.invoke self event) st
  = (Return tt, foldl (Spec.invoked self e) st l).
Proof.
  induction l as [|p l IH]; intros st Hev; [reflexivity|].
  cbn [for_each foldl].
  returns (invoke_invoked _ _ _ _ Hev).
  apply IH. eapply lookup_weaken; [exact Hev | apply invoked_heap].
Qed.

Lemma matches_typed (event : loc) (e : dict) (ty : value) (p : plugin) st :
  heap st !! event = Some e -> e !! "type" = Some ty ->
  Nimbus.matches event p st = (Return (eq_str ty (event_type p)), st).
Proof.
  intros Hev Hty. unfold Nimbus.matches.
  reads Hev.
  unfold getitem. by rewrite Hty.
Qed.

Lemma matches_untyped (event : loc) (e : dict) (p : plugin) st :
  heap st !! event = Some e -> e !! "type" = None ->
  Nimbus.matches event p st = (Raise (KeyError "type"), st).
Proof.
  intros Hev Hty. unfold Nimbus.matches.
  reads Hev.
  unfold getitem. by rewrite Hty.
Qed.

Lemma py_filter_typed (event : loc) (e : dict) (ty : value) (l : list plugin) st :
  heap st !! event = Some e -> e !! "type" = Some ty ->
  py_filter (Nimbus.matches event) l st = (Return (Spec.reacting ty l), st).
Proof.
  intros Hev Hty. induction l as [|p l IH]; [reflexivity|].
  cbn [py_filter].
  returns (matches_typed _ _ _ p _ Hev Hty).
  returns IH.
  unfold ret, Spec.reacting. cbn [List.filter].
  by destruct (eq_str ty (event_type p)).
Qed.

Lemma debug_step (event : loc) (e : dict) st :
  heap st !! event = Some e ->
  (if truthy (debug_mode self)
   then e <- deref event ;; log_info (Mapping e)
   else ret tt) st = (Return tt, Spec.debugged self e st).
Proof.
  intros Hev. unfold Spec.debugged.
  destruct (truthy (debug_mode self)); [|reflexivity].
  by reads Hev.
Qed.

Lemma debugged_heap (e : dict) st : heap (Spec.debugged self e st) = heap st.
Proof. unfold Spec.debugged. by destruct (truthy (debug_mode self)). Qed.

Lemma debugged_plugins (e : dict) st :
  plugins (Spec.debugged self e st) = plugins st.
Proof. unfold Spec.debugged. by destruct (truthy (debug_mode self)). Qed.

Lemma debugged_executor (e : dict) st :
  executor (Spec.debugged self e st) = executor st.
Proof. unfold Spec.debugged. by destruct (truthy (debug_mode self)). Qed.

(** What [process_event] does with an event that has a type. *)
Lemma process_event_typed (event : loc) (e : dict) (ty : value) st :
  heap st !! event = Some e -> e !! "type" = Some ty ->
  Nimbus.process_event self event st
  = (Return tt,
     foldl (Spec.invoked self e) (Spec.debugged self e st)
           (Spec.reacting ty (plugins st))).
Proof.
  intros Hev Hty. unfold Nimbus.process_event.
  returns (debug_step _ _ _ Hev).
  assert (Hev' : heap (Spec.debugged self e st) !! event = Some e)
    by by rewrite debugged_heap.
  unfold bind at 1, gets. rewrite debugged_plugins.
  returns (py_filter_typed _ _ _ _ _ Hev' Hty).
  by apply for_each_invoke.
Qed.

Lemma process_event_untyped (event : loc) (e : dict) (st : state) :
  heap st !! event = Some e -> e !! "type" = None ->
  Nimbus.process_event self event st
  = (match plugins st with
     | [] => Return tt
     | _ => Raise (KeyError "type")
     end, Spec.debugged self e st).
Proof.
  intros Hev Hty. unfold Nimbus.process_event.
  returns (debug_step _ _ _ Hev).
  assert (Hev' : heap (Spec.debugged self e st) !! event = Some e)
    by by rewrite debugged_heap.
  unfold bind at 1, gets. rewrite debugged_plugins.
  destruct (plugins st) as [|p l]; [reflexivity|].
  cbn [py_filter].
  apply bind_Raise, bind_Raise. by apply (matches_untyped _ e).
Qed.

Lemma serves_earlier (e : dict) (st0 st1 st' : state) (f : future) :
  heap st0 ⊆ heap st1 ->
  Spec.serves self e st1 st' f -> Spec.serves self e st0 st' f.
Proof.
  intros Hsub (Hr & Hc & Hcb & Hfr & Hfc & Hne).
  pose proof (subseteq_dom _ _ Hsub) as Hdom.
  repeat split; try done; set_solver.
Qed.

(** The passes of the loop of [process_event] over the plugins [l]: one
    unit of work for each, in order, each with objects of its own. *)
Lemma invoked_all (e : dict) (l : list plugin) :
  forall st,
  exists new,
    executor (foldl (Spec.invoked self e) st l) = executor st ++ new
    /\ map fn new = l
    /\ plugins (foldl (Spec.invoked self e) st l) = plugins st
    /\ api_calls (foldl (Spec.invoked self e) st l) = api_calls st
    /\ log (foldl (Spec.invoked self e) st l) = log st
    /\ constructions (foldl (Spec.invoked self e) st l) = constructions st
    /\ heap st ⊆ heap (foldl (Spec.invoked self e) st l)
    /\ Forall (Spec.serves self e st (foldl (Spec.invoked self e) st l)) new
    /\ NoDup (concat (map Spec.objects new)).
Proof.
  induction l as [|p l IH]; intros st.
  - exists []. cbn. rewrite app_nil_r. repeat split; try done.
    constructor.
  - cbn [foldl].
    set (st1 := Spec.invoked self e st p).
    destruct (IH st1) as (new & Hex & Hfn & Hpl & Hapi & Hlog & Hcon & Hsub & Hall & Hnd).
    set (st' := foldl (Spec.invoked self e) st1 l) in *.
    set (r := fresh (dom (heap st))).
    set (h := <[r := Spec.draft self e]> (heap st)).
    set (c := fresh (dom h)).
    assert (Hrc : r ≠ c).
    { intros Heq. apply (is_fresh (dom h)). fold c. rewrite <- Heq.
      apply elem_of_dom. exists (Spec.draft self e). apply lookup_insert_eq. }
    assert (Hh1 : heap st1 = <[c := e]> h) by reflexivity.
    assert (Hr1 : heap st1 !! r = Some (Spec.draft self e)).
    { rewrite Hh1, lookup_insert_ne by done. apply lookup_insert_eq. }
    assert (Hc1 : heap st1 !! c = Some e).
    { rewrite Hh1. apply lookup_insert_eq. }
    pose proof (invoked_heap e p st) as Hsub1. fold st1 in Hsub1.
    exists (Future p c r [PostErrorResponse p r] :: new).
    repeat split.
    + rewrite Hex. unfold st1, Spec.invoked; cbn. by rewrite <- app_assoc.
    + cbn. by rewrite Hfn.
    + by rewrite Hpl.
    + by rewrite Hapi.
    + by rewrite Hlog.
    + by rewrite Hcon.
    + by transitivity (heap st1).
    + constructor.
      * repeat split; cbn.
        -- eapply lookup_weaken; eauto.
        -- eapply lookup_weaken; eauto.
        -- apply is_fresh.
        -- intros Hin. apply (is_fresh (dom h)). fold c.
           unfold h. rewrite dom_insert_L. set_solver.
        -- exact Hrc.
      * eapply Forall_impl; [exact Hall|].
        intros f Hf. eapply serves_earlier; eauto.
    + cbn [map concat Spec.objects arg_response arg_event app].
      assert (Hold : forall x, x ∈ concat (map Spec.objects new) ->
                               x ∉ dom (heap st1)).
      { intros x Hx. apply list_elem_of_In, in_concat in Hx.
        destruct Hx as (objs & Hobjs & Hx).
        apply in_map_iff in Hobjs as (f & <- & Hf).
        rewrite Forall_forall in Hall.
        destruct (Hall f) as (_ & _ & _ & Hfr & Hfc & _).
        { by apply list_elem_of_In. }
        cbn in Hx. destruct Hx as [<- | [<- | []]]; done. }
      constructor; [|constructor; [|exact Hnd]].
      * rewrite elem_of_cons. intros [Heq | Hin]; [done|].
        apply (Hold _ Hin). apply elem_of_dom. eauto.
      * intros Hin. apply (Hold _ Hin). apply elem_of_dom. eauto.
Qed.


(** C3.  [process_event] submits one unit of work for each plugin of the
    collection whose [event_type] equals the [type] of the event, in the
    order of the collection, and nothing else: the plugins of the new units
    of work are exactly the matching ones, none has another [event_type],
    and there are as many units as matching plugins.  An event with a
    [type] is always processed to the end; one without has no matching
    plugin and nothing is submitted for it. *)
Theorem process_event_invokes_the_matching_plugins (st : state) (event : loc)
    (e : dict) :
  heap st !! event = Some e ->
  let matching :=
    match e !! "type" with
    | Some ty => List.filter (fun p => eq_str ty (event_type p)) (plugins st)
    | None => []
    end in
  exists res st' new,
    Nimbus.process_event self event st = (res, st')
    /\ executor st' = executor st ++ new
    /\ map fn new = matching
    /\ length new = length matching
    /\ Forall (fun f => exists ty, e !! "type" = Some ty
                                  /\ eq_str ty (event_type (fn f)) = true) new
    /\ plugins st' = plugins st
    /\ (is_Some (e !! "type") -> res = Return tt).
Proof.
  intros Hev matching. subst matching.
  destruct (e !! "type") as [ty|] eqn:Hty.
  - destruct (invoked_all e (Spec.reacting ty (plugins st)) (Spec.debugged self e st))
      as (new & Hex & Hfn & Hpl & _).
    eexists _, _, new. split; [by apply process_event_typed|].
    rewrite debugged_executor in Hex. rewrite debugged_plugins in Hpl.
    split; [done|]. split; [done|].
    split; [by rewrite <- (length_map fn new), Hfn|].
    split; [|by split].
    rewrite Forall_forall. intros f Hf. exists ty. split; [done|].
    assert (Hin : In (fn f) (Spec.reacting ty (plugins st))).
    { rewrite <- Hfn. apply in_map. by apply list_elem_of_In. }
    apply filter_In in Hin. tauto.
  - eexists _, _, []. split; [by apply process_event_untyped|].
    rewrite app_nil_r, debugged_executor, debugged_plugins.
    repeat split; try done.
Qed.


(** ** Completion of an invocation *)






(** ** The run loop *)

Lemma advances_refl (st : state) : Spec.advances st st [].
Proof. exists []. rewrite app_nil_r. by repeat split. Qed.

Lemma decided_later (st st' : state) (f : future) (d : dict * plugin) :
  heap st ⊆ heap st' -> Spec.decided st f d -> Spec.decided st' f d.
Proof. intros Hsub [Hev Hfn]. split; [|done]. eapply lookup_weaken; eauto. Qed.

Lemma advances_trans (st0 st1 st2 : state) (ds1 ds2 : list (dict * plugin)) :
  Spec.advances st0 st1 ds1 -> Spec.advances st1 st2 ds2 ->
  Spec.advances st0 st2 (ds1 ++ ds2).
Proof.
  intros (new1 & Hex1 & Hd1 & Hsub1 & Hpl1 & Hcon1)
         (new2 & Hex2 & Hd2 & Hsub2 & Hpl2 & Hcon2).
  exists (new1 ++ new2). repeat split.
  - by rewrite Hex2, Hex1, app_assoc.
  - apply Forall2_app; [|done].
    eapply Forall2_impl; [exact Hd1|]. intros f d. by apply decided_later.
  - by transitivity (heap st1).
  - congruence.
  - congruence.
Qed.

Lemma advances_quiet (st st' : state) :
  executor st' = executor st -> heap st' = heap st ->
  plugins st' = plugins st -> constructions st' = constructions st ->
  Spec.advances st st' [].
Proof.
  intros Hex Hh Hpl Hcon. exists []. rewrite app_nil_r, Hh.
  by repeat split.
Qed.

Lemma debugged_advances (e : dict) (st : state) :
  Spec.advances st (Spec.debugged self e st) [].
Proof.
  apply advances_quiet; unfold Spec.debugged;
    by destruct (truthy (debug_mode self)).
Qed.

Lemma invoked_advances (e : dict) (l : list plugin) (st : state) :
  Spec.advances st (foldl (Spec.invoked self e) st l) (map (pair e) l).
Proof.
  destruct (invoked_all e l st)
    as (new & Hex & Hfn & Hpl & _ & _ & Hcon & Hsub & Hall & _).
  exists new. repeat split; try done.
  set (st' := foldl (Spec.invoked self e) st l) in *. clearbody st'.
  subst l. clear Hex.
  induction Hall as [|f fs Hf Hall IH]; cbn; constructor.
  - destruct Hf as (_ & Hc & _). by split.
  - exact IH.
Qed.

(** One pass of the loop of [run]: the decisions are those of
    [Spec.handled]. *)
Lemma run_event_handled (event : loc) (e : dict) (st : state) :
  heap st !! event = Some e ->
  exists st',
    Nimbus.run_event self event st
    = (Spec.outcome (Spec.handled (plugins st) e).2, st')
    /\ Spec.advances st st' (map (pair e) (Spec.handled (plugins st) e).1).
Proof.
  intros Hev. unfold Nimbus.run_event, Spec.handled, Spec.survives.
  reads Hev.
  destruct (eq_str (get e "subtype") "bot_message").
  { exists st. split; [reflexivity | apply advances_refl]. }
  reads Hev.
  destruct (truthy (get e "hidden")).
  { exists st. split; [reflexivity | apply advances_refl]. }
  cbn [negb andb]. destruct (e !! "type") as [ty|] eqn:Hty.
  - rewrite (process_event_typed _ _ _ _ Hev Hty). eexists. split; [reflexivity|].
    cbn [fst]. rewrite <- (debugged_plugins e st).
    apply (advances_trans _ _ _ [] _ (debugged_advances e st)).
    rewrite debugged_plugins. rewrite <- (debugged_plugins e st).
    apply invoked_advances.
  - rewrite (process_event_untyped _ _ _ Hev Hty). eexists. split.
    + by destruct (plugins st).
    + cbn. apply debugged_advances.
Qed.

Lemma advances_heap (st st' : state) ds :
  Spec.advances st st' ds -> heap st ⊆ heap st'.
Proof. by intros (? & ? & ? & ? & ? & ?). Qed.

Lemma advances_plugins (st st' : state) ds :
  Spec.advances st st' ds -> plugins st' = plugins st.
Proof. by intros (? & ? & ? & ? & ? & ?). Qed.

Lemma rtm_read_live (received : list dict) :
  forall st, exists events st',
    Nimbus.rtm_read received st = (Return events, st')
    /\ Spec.advances st st' []
    /\ Forall2 (fun l d => heap st' !! l = Some d) events received.
Proof.
  induction received as [|d rest IH]; intros st.
  - exists [], st. split; [reflexivity|]. split; [apply advances_refl | constructor].
  - cbn [Nimbus.rtm_read]. unfold bind at 1. cbn [alloc].
    set (l := fresh (dom (heap st))).
    set (st1 := set_heap <[l := d]> st).
    assert (Hadv1 : Spec.advances st st1 []).
    { exists []. rewrite app_nil_r. repeat split; try done.
      apply insert_subseteq, not_elem_of_dom, is_fresh. }
    destruct (IH st1) as (events & st' & Hread & Hadv & Hlive).
    returns Hread.
    exists (l :: events), st'. split; [reflexivity|]. split.
    + apply (advances_trans _ _ _ [] [] Hadv1 Hadv).
    + constructor; [|done].
      eapply lookup_weaken; [|eapply advances_heap; eauto].
      apply lookup_insert_eq.
Qed.

Lemma for_each_run_event (events : list loc) (batch : list dict) :
  forall st,
  Forall2 (fun l d => heap st !! l = Some d) events batch ->
  exists st',
    for_each events (Nimbus.run_event self) st
    = (Spec.outcome (Spec.batch_plan (plugins st) batch).2, st')
    /\ Spec.advances st st' (Spec.batch_plan (plugins st) batch).1.
Proof.
  revert batch. induction events as [|event events IH];
    intros batch st Hlive; inversion Hlive as [|? e ? rest Hev Hrest]; subst.
  - exists st. split; [reflexivity | apply advances_refl].
  - cbn [for_each Spec.batch_plan].
    destruct (run_event_handled event e st Hev) as (st1 & Hrun & Hadv1).
    destruct (Spec.handled (plugins st) e).2 as [x|] eqn:Hx.
    + exists st1. split; [by apply bind_Raise | exact Hadv1].
    + returns Hrun.
      destruct (IH rest st1) as (st' & Hloop & Hadv).
      { eapply Forall2_impl; [exact Hrest|]. intros l d Hl.
        eapply lookup_weaken; [exact Hl | eapply advances_heap; eauto]. }
      rewrite (advances_plugins _ _ _ Hadv1) in Hloop, Hadv.
      exists st'. split; [exact Hloop|].
      by apply (advances_trans _ _ _ _ _ Hadv1).
Qed.

Lemma run_loop_plan (polled : list (list dict)) :
  forall st, exists st',
    Nimbus.run_loop self polled st
    = (Spec.outcome (Spec.plan (plugins st) polled).2, st')
    /\ Spec.advances st st' (Spec.plan (plugins st) polled).1.
Proof.
  induction polled as [|received later IH]; intros st.
  - exists st. split; [reflexivity | apply advances_refl].
  - cbn [Nimbus.run_loop Spec.plan].
    destruct (rtm_read_live received st) as (events & st1 & Hread & Hadv1 & Hlive).
    returns Hread.
    destruct (for_each_run_event events received st1 Hlive)
      as (st2 & Hloop & Hadv2).
    rewrite (advances_plugins _ _ _ Hadv1) in Hloop, Hadv2.
    pose proof (advances_trans _ _ _ _ _ Hadv1 Hadv2) as Hadv12. cbn [app] in Hadv12.
    destruct (Spec.batch_plan (plugins st) received).2 as [x|] eqn:Hx.
    + exists st2. split; [by apply bind_Raise | exact Hadv12].
    + returns Hloop.
      unfold bind at 1, time_sleep, modify.
      set (st3 := set_slept _ st2).
      assert (Hadv3 : Spec.advances st2 st3 []) by by apply advances_quiet.
      destruct (IH st3) as (st' & Hlater & Hadv).
      replace (plugins st3) with (plugins st) in Hlater, Hadv
        by (symmetry; apply (advances_plugins _ _ _ Hadv12)).
      exists st'. split; [exact Hlater|].
      pose proof (advances_trans _ _ _ _ _ Hadv12 Hadv3) as H123.
      rewrite app_nil_r in H123.
      by apply (advances_trans _ _ _ _ _ H123).
Qed.

Lemma run_plan (polled : list (list dict)) (st : state) :
  exists st',
    Nimbus.run self polled st
    = (Spec.outcome (Spec.plan (plugins st) polled).2, st')
    /\ Spec.advances st st' (Spec.plan (plugins st) polled).1.
Proof.
  unfold Nimbus.run, bind at 1, log_info, modify.
  set (st0 := set_log _ st).
  assert (Hadv0 : Spec.advances st st0 []) by by apply advances_quiet.
  destruct (run_loop_plan polled st0) as (st' & Hloop & Hadv).
  exists st'. split; [exact Hloop|].
  by apply (advances_trans _ _ _ [] _ Hadv0).
Qed.

End Dispatch.

(** ** What the loop decides, and what ends it *)








Lemma submitted_advances (st st' : state) (ds : list (dict * plugin)) :
  Spec.advances st st' ds ->
  map (Spec.decision st') (Spec.submitted st st')
  = map (fun d => (Some d.1, d.2)) ds.
Proof.
  intros (new & Hex & Hd & _). unfold Spec.submitted.
  rewrite Hex, drop_app_length. clear Hex.
  induction Hd as [|f d fs ds [Hev Hfn] Hd IH]; [done|].
  cbn [map]. rewrite IH. unfold Spec.decision. by rewrite Hev, Hfn.
Qed.

Lemma handled_survivor (ps : list plugin) (e : dict) (p : plugin) :
  In p (Spec.handled ps e).1 -> Spec.survives e = true.
Proof.
  unfold Spec.handled. destruct (Spec.survives e); [done|]. by intros [].
Qed.

Lemma batch_plan_survivors (ps : list plugin) (batch : list dict) :
  Forall (fun d => Spec.survives d.1 = true) (Spec.batch_plan ps batch).1.
Proof.
  induction batch as [|e rest IH]; [constructor|]. cbn [Spec.batch_plan].
  assert (Hhead : Forall (fun d : dict * plugin => Spec.survives d.1 = true)
                         (map (pair e) (Spec.handled ps e).1)).
  { rewrite Forall_forall. intros d Hd.
    apply list_elem_of_In, in_map_iff in Hd as (p & <- & Hp).
    by apply (handled_survivor ps e p). }
  destruct (Spec.handled ps e).2; cbn [fst]; [done|].
  by apply Forall_app.
Qed.

Lemma plan_survivors (ps : list plugin) (polled : list (list dict)) :
  Forall (fun d => Spec.survives d.1 = true) (Spec.plan ps polled).1.
Proof.
  induction polled as [|batch later IH]; [constructor|]. cbn [Spec.plan].
  pose proof (batch_plan_survivors ps batch) as Hhead.
  destruct (Spec.batch_plan ps batch).2; cbn [fst]; [done|].
  by apply Forall_app.
Qed.

(** C2.  An event whose [subtype] is ['bot_message'], or whose [hidden]
    field is true, is dropped by the loop of [run] before anything else
    happens: the state is left as it was, so no plugin is matched and no
    work is submitted, and the loop goes on with the next event.  No unit
    of work that a run of the loop submits is for such an event. *)
Theorem run_discards_bot_and_hidden_events (self : settings) (st : state)
    (event : loc) (e : dict) (rest : list loc) :
  heap st !! event = Some e ->
  e !! "subtype" = Some (VStr "bot_message")
  \/ (exists v, e !! "hidden" = Some v /\ truthy v = true) ->
  Nimbus.run_event self event st = (Return tt, st)
  /\ for_each (event :: rest) (Nimbus.run_event self) st
     = for_each rest (Nimbus.run_event self) st
  /\ (forall polled st0,
        Forall (fun d => d.1 ≠ Some e)
          (map (Spec.decision (Nimbus.run self polled st0).2)
               (Spec.submitted st0 (Nimbus.run self polled st0).2))).
Proof.
  intros Hev Hdrop.
  assert (Hrun : Nimbus.run_event self event st = (Return tt, st)).
  { unfold Nimbus.run_event.
    reads Hev.
    destruct Hdrop as [Hsub | (v & Hhid & Hv)].
    - unfold get. rewrite Hsub. reflexivity.
    - destruct (eq_str (get e "subtype") "bot_message"); [reflexivity|].
      reads Hev.
      unfold get. rewrite Hhid, Hv. reflexivity. }
  split; [exact Hrun|]. split.
  { cbn [for_each]. by returns Hrun. }
  intros polled st0.
  assert (Hgone : Spec.survives e = false).
  { unfold Spec.survives, get.
    destruct Hdrop as [-> | (v & -> & ->)]; [reflexivity|].
    apply andb_false_r. }
  destruct (run_plan self polled st0) as (st' & Hloop & Hadv).
  rewrite Hloop. cbn [snd]. rewrite (submitted_advances _ _ _ Hadv).
  pose proof (plan_survivors (plugins st0) polled) as Hsurv.
  rewrite Forall_forall in Hsurv. rewrite Forall_forall. intros d Hd.
  apply list_elem_of_In, in_map_iff in Hd as (d0 & <- & Hd0).
  cbn [fst]. intros [= Heq].
  apply list_elem_of_In, Hsurv in Hd0. congruence.
Qed.






(** ** Loading the plugins *)

Section Loading.

Variable env : environment.
Variable self : settings.
Variable plugin_directory : string.

(** The state [register_plugin] leaves when the construction succeeds. *)
Lemma register_plugin_loaded (klass : plugin_class) (p : plugin) (st : state) :
  construct klass [self] = Return p ->
  Nimbus.register_plugin self klass st
  = (Return true,
     set_log (fun l => l ++ [Info (Text ("Successfully loaded plugin '"
                                          +:+ cls_name klass +:+ "'"))])
       (set_plugins (fun l => l ++ [p])
          (set_constructions (fun l => l ++ [Spec.called_with_bot klass]) st))).
Proof.
  intros Hc. unfold Nimbus.register_plugin, try_except, instantiate, bind, modify.
  by rewrite Hc.
Qed.

(** The state [register_plugin] leaves when the construction raises. *)
Lemma register_plugin_skipped (klass : plugin_class) (e : exn) (st : state) :
  construct klass [self] = Raise e ->
  Nimbus.register_plugin self klass st
  = (Return false,
     set_log (fun l => l ++ [Exception (Text ("Error loading plugin "
                                               +:+ cls_name klass +:+ "! Skipping..."))])
       (set_constructions (fun l => l ++ [Spec.called_with_bot klass]) st)).
Proof.
  intros Hc. unfold Nimbus.register_plugin, try_except, instantiate, bind, modify.
  by rewrite Hc.
Qed.

Lemma loaded_cons (klass : plugin_class) (classes : list plugin_class) :
  Spec.loaded self (klass :: classes)
  = match construct klass [self] with
    | Return p => p :: Spec.loaded self classes
    | Raise _ => Spec.loaded self classes
    end.
Proof. unfold Spec.loaded. simpl. by destruct (construct klass [self]). Qed.

Lemma loaded_app (before after : list plugin_class) :
  Spec.loaded self (before ++ after)
  = Spec.loaded self before ++ Spec.loaded self after.
Proof. unfold Spec.loaded. apply omap_app. Qed.

(** The loop over the classes of one module never raises: it calls every
    class once, keeps the instances that could be built and counts them. *)
Lemma register_classes_run (members : list (string * member)) :
  forall (n : nat) (st : state),
  exists st',
    Nimbus.register_classes self members n st
    = (Return (n + length (Spec.loaded self (Spec.classes_of members))), st')
    /\ plugins st' = plugins st ++ Spec.loaded self (Spec.classes_of members)
    /\ constructions st'
       = constructions st ++ map Spec.called_with_bot (Spec.classes_of members).
Proof.
  induction members as [|[name m] rest IH]; intros n st.
  - exists st. cbn. by rewrite Nat.add_0_r, !app_nil_r.
  - destruct m as [md klass| |]; cbn [Nimbus.register_classes Spec.classes_of];
      [|apply IH..].
    rewrite loaded_cons. cbn [map].
    destruct (construct klass [self]) as [p|e] eqn:Hc.
    + returns (register_plugin_loaded _ _ st Hc).
      edestruct IH as (st' & Hrun & Hpl & Hcon). exists st'.
      rewrite Hrun, Hpl, Hcon. cbn. rewrite <- !app_assoc.
      repeat split. do 2 f_equal. lia.
    + returns (register_plugin_skipped _ _ st Hc).
      edestruct IH as (st' & Hrun & Hpl & Hcon). exists st'.
      rewrite Hrun, Hpl, Hcon. cbn. by rewrite <- !app_assoc.
Qed.

(** The loop over the files of the directory. *)
Lemma load_files_run (files : list string) :
  forall (n : nat) (st : state),
  let classes := Spec.discovered env plugin_directory files in
  exists res st',
    Nimbus.load_files env self plugin_directory files n st = (res, st')
    /\ plugins st' = plugins st ++ Spec.loaded self classes
    /\ constructions st' = constructions st ++ map Spec.called_with_bot classes
    /\ (Spec.imports env plugin_directory files = true ->
        res = Return (n + length (Spec.loaded self classes)))
    /\ (Spec.imports env plugin_directory files = false ->
        exists e, res = Raise e).
Proof.
  induction files as [|f rest IH]; intros n st classes.
  - exists (Return n), st. cbn. rewrite Nat.add_0_r, !app_nil_r. by repeat split.
  - subst classes. cbn [Nimbus.load_files Spec.discovered Spec.imports].
    destruct (splitext f) as [module_name extension]. cbn [fst snd].
    destruct (String.eqb extension ".py"); [|apply IH].
    destruct (import_module env (plugin_directory +:+ "." +:+ module_name))
      as [members|e].
    + set (classes := List.filter _ members).
      destruct (register_classes_run classes n st) as (st1 & Hrun & Hpl1 & Hcon1).
      returns Hrun.
      destruct (IH (n + length (Spec.loaded self (Spec.classes_of classes))) st1)
        as (res & st' & Hload & Hpl & Hcon & Hok & Hko).
      exists res, st'. rewrite loaded_app, map_app, length_app.
      rewrite Hpl, Hpl1, Hcon, Hcon1, <- !app_assoc.
      repeat split; try done.
      intros Himp. rewrite (Hok Himp). f_equal. lia.
    + exists (Raise e), st. cbn. rewrite !app_nil_r.
      repeat split; try done. by exists e.
Qed.

Lemma load_plugins_run (st : state) :
  let classes :=
    Spec.discovered env plugin_directory (listdir env plugin_directory) in
  exists res st',
    Nimbus.load_plugins env self plugin_directory st = (res, st')
    /\ plugins st' = plugins st ++ Spec.loaded self classes
    /\ constructions st' = constructions st ++ map Spec.called_with_bot classes
    /\ (Spec.imports env plugin_directory (listdir env plugin_directory) = true ->
        res = Return tt
        /\ last (log st')
           = Some (Info (Text ("Loaded "
                                +:+ pretty (length (Spec.loaded self classes))
                                +:+ " plugins!"))))
    /\ (Spec.imports env plugin_directory (listdir env plugin_directory) = false ->
        exists e, res = Raise e).
Proof.
  intros classes. unfold Nimbus.load_plugins, bind at 1, log_info at 1, modify.
  set (st0 := set_log _ st).
  destruct (load_files_run (listdir env plugin_directory) 0 st0)
    as (res & st1 & Hload & Hpl & Hcon & Hok & Hko).
  fold classes in Hpl, Hcon, Hok.
  destruct (Spec.imports env plugin_directory (listdir env plugin_directory)).
  - rewrite (Hok eq_refl) in Hload. returns Hload.
    eexists _, _. split; [reflexivity|]. cbn.
    repeat split; try done. by rewrite last_snoc.
  - destruct (Hko eq_refl) as [e ->]. rewrite (bind_Raise _ _ _ _ _ Hload).
    eexists _, _. split; [reflexivity|]. repeat split; try done. by exists e.
Qed.

End Loading.

(** [__init__] loads the plugins once, as its last step, into an empty
    collection. *)
Lemma init_loads_once (env : environment) (config_name : string) (st : state)
    (self : settings) (st' : state) :
  Nimbus.init env config_name st = (Return self, st') ->
  exists plugin_directory,
    let classes :=
      Spec.discovered env plugin_directory (listdir env plugin_directory) in
    plugins st' = Spec.loaded self classes
    /\ constructions st' = constructions st ++ map Spec.called_with_bot classes
    /\ last (log st')
       = Some (Info (Text ("Loaded " +:+ pretty (length (plugins st'))
                            +:+ " plugins!"))).
Proof.
  unfold Nimbus.init, Nimbus.get_config.
  unfold bind at 1, log_info at 1, modify at 1.
  unfold bind at 1.
  destruct (config_file env config_name) as [config|]; [|done].
  cbn [ret]. unfold bind at 1.
  destruct (Nimbus.get_default config "icon_emoji" (VStr "cloud")) as [| | |icon| | |];
    try done.
  cbn [ret]. unfold bind at 1, modify at 1. unfold bind at 1, modify at 1.
  destruct (negb (truthy (get config "token"))); [done|].
  destruct (negb (rtm_connect env)); [done|].
  unfold bind at 1, log_info at 1, modify at 1.
  destruct (Nimbus.get_default config "plugin_directory" (VStr "plugins"))
    as [| | |plugin_directory| | |]; try done.
  destruct (negb (isdir env plugin_directory)); [done|].
  destruct (negb (exists_ env plugin_directory)); [done|].
  set (self0 := Settings _ _ _ _ _).
  set (st0 := set_log _ (set_plugins _ _)).
  assert (Hdebug : exists st1,
    (if truthy (debug_mode self0)
     then log_info (Text "Debug mode is enabled!") else ret tt) st0
    = (Return tt, st1)
    /\ plugins st1 = [] /\ constructions st1 = constructions st).
  { destruct (truthy (debug_mode self0)); eexists; by repeat split. }
  destruct Hdebug as (st1 & Hdebug & Hpl1 & Hcon1).
  returns Hdebug.
  destruct (load_plugins_run env self0 plugin_directory st1)
    as (res & st2 & Hload & Hpl & Hcon & Hok & Hko).
  unfold bind. rewrite Hload.
  destruct res as [[]|e]; [|done].
  intros [= <- <-]. exists plugin_directory. cbn zeta.
  rewrite Hpl1 in Hpl. rewrite Hcon1 in Hcon. cbn [app] in Hpl.
  repeat split; try done.
  destruct (Spec.imports env plugin_directory (listdir env plugin_directory)).
  - destruct (Hok eq_refl) as [_ Hlast]. by rewrite Hpl.
  - by destruct (Hko eq_refl).
Qed.

(** C5.  [load_plugins] adds to the collection the instances of the
    discovered classes that could be built, in the order of discovery, and
    nothing else: a class whose construction raises is skipped by
    [register_plugin], which returns [False] and leaves the collection as it
    was, and the classes discovered after it are still registered.  When
    every module imports, loading ends by reporting the number of instances
    built, which is the size of the collection when it was empty before, as
    it is when [__init__] loads. *)
Theorem failed_construction_is_skipped_and_loading_goes_on (env : environment)
    (self : settings) (plugin_directory : string) (st : state) :
  let files := listdir env plugin_directory in
  let classes := Spec.discovered env plugin_directory files in
  (exists res st',
     Nimbus.load_plugins env self plugin_directory st = (res, st')
     /\ plugins st' = plugins st ++ Spec.loaded self classes
     /\ (plugins st = [] -> length (plugins st') = length (Spec.loaded self classes))
     /\ (Spec.imports env plugin_directory files = true ->
         res = Return tt
         /\ last (log st')
            = Some (Info (Text ("Loaded "
                                 +:+ pretty (length (Spec.loaded self classes))
                                 +:+ " plugins!")))))
  /\ (forall klass e st0,
        construct klass [self] = Raise e ->
        exists st0',
          Nimbus.register_plugin self klass st0 = (Return false, st0')
          /\ plugins st0' = plugins st0)
  /\ (forall before klass after e,
        construct klass [self] = Raise e ->
        Spec.loaded self (before ++ klass :: after)
        = Spec.loaded self before ++ Spec.loaded self after)
  /\ (forall config_name bot st',
        Nimbus.init env config_name st = (Return bot, st') ->
        last (log st')
        = Some (Info (Text ("Loaded " +:+ pretty (length (plugins st'))
                             +:+ " plugins!")))).
Proof.
  intros files classes. repeat split.
  - destruct (load_plugins_run env self plugin_directory st)
      as (res & st' & Hload & Hpl & _ & Hok & _).
    exists res, st'. split; [done|]. split; [done|]. split; [|exact Hok].
    intros Hempty. by rewrite Hpl, Hempty.
  - intros klass e st0 Hc. eexists.
    split; [by apply (register_plugin_skipped self klass e)|reflexivity].
  - intros before klass after e Hc.
    by rewrite loaded_app, loaded_cons, Hc.
  - intros config_name bot st' Hinit.
    by destruct (init_loads_once _ _ _ _ _ Hinit) as (dir & _ & _ & Hlast).
Qed.


(** ** Looking a command up *)

Lemma first_trigger_found (trigger : string) (p q : plugin) (trigs : list string) :
  Nimbus.first_trigger trigger p trigs = Some q -> q = p /\ In trigger trigs.
Proof.
  induction trigs as [|trig rest IH]; [done|]. cbn [Nimbus.first_trigger].
  destruct (String.eqb_spec trigger trig) as [->|Hne].
  - intros [= <-]. split; [done | by left].
  - intros H. destruct (IH H). split; [done | by right].
Qed.

Lemma first_trigger_missing (trigger : string) (p : plugin) (trigs : list string) :
  Nimbus.first_trigger trigger p trigs = None <-> ~ In trigger trigs.
Proof.
  induction trigs as [|trig rest IH]; [cbn; tauto|].
  cbn [Nimbus.first_trigger In].
  destruct (String.eqb_spec trigger trig) as [->|Hne].
  - split; [done|]. intros H. destruct H. by left.
  - rewrite IH. split; [|tauto].
    intros H [Heq|Hin]; [by symmetry in Heq | tauto].
Qed.

Lemma first_trigger_holder (trigger : string) (p : plugin) (trigs : list string) :
  In trigger trigs -> Nimbus.first_trigger trigger p trigs = Some p.
Proof.
  intros Hin. destruct (Nimbus.first_trigger trigger p trigs) as [q|] eqn:Hq.
  - by destruct (first_trigger_found _ _ _ _ Hq) as [-> _].
  - by apply first_trigger_missing in Hq.
Qed.




(** ** Sample runs *)

Section Samples.

Import Example.

Example splitext_samples :
  splitext "uptime.py" = ("uptime", ".py")
  /\ splitext "a.b.py" = ("a.b", ".py")
  /\ splitext ".py" = (".py", EmptyString)
  /\ splitext "README" = ("README", EmptyString)
  /\ splitext "notes." = ("notes", ".").
Proof. repeat split. Qed.

Example truthy_samples :
  map truthy [VNone; VBool false; VInt 0; VStr EmptyString; VList []; VDict ∅]
  = [false; false; false; false; false; false]
  /\ map truthy [VBool true; VInt 2; VStr "x"; VList [VNone]; VDict message]
     = [true; true; true; true; true].
Proof. split; reflexivity. Qed.

(** [!uptime] with nothing after it is answered on the draft; with
    arguments it is not answered. *)
Example uptime_on_command_samples :
  let bare := <[ "text" := VStr EmptyString ]> message in
  let reply := Uptime.on_command "0:00:05" bare (Spec.draft bot bare) in
  raised reply = None
  /\ map api_method (sent reply) = ["chat.postMessage"]
  /\ response_after reply !! "text" = Some (VStr "Bot Uptime: `0:00:05`")
  /\ response_after reply !! "channel" = Some (VStr "C1")
  /\ sent (Uptime.on_command "0:00:05" message (Spec.draft bot message)) = [].
Proof. repeat split. Qed.

(** The start-up of the sample environment: the settings are the defaults,
    and the log tells what happened to the one plugin found. *)
Example init_sample :
  (Nimbus.init env "nimbus.yml" initial).1 = Return bot
  /\ log (Nimbus.init env "nimbus.yml" initial).2
     = [Info (Text "Initializing Nimbus instance...");
        Info (Text "Successfully authenticated with Slack!");
        Info (Text "Loading plugins from directory 'plugins'...");
        Exception (Text "Error loading plugin Uptime! Skipping...");
        Info (Text "Loaded 0 plugins!")].
Proof. split; reflexivity. Qed.

(** A bot-originated event and a hidden one, met by a bot that holds a
    plugin for their type, are dropped. *)
Lemma run_discards_bot_and_hidden_events_witness :
  Nimbus.run_event bot 1%positive (holding [echo] from_bot)
  = (Return tt, holding [echo] from_bot)
  /\ Nimbus.run_event bot 1%positive (holding [echo] edited)
     = (Return tt, holding [echo] edited).
Proof.
  split.
  - refine (proj1 (run_discards_bot_and_hidden_events bot
                     (holding [echo] from_bot) 1%positive from_bot [] _ _)).
    + reflexivity.
    + left. reflexivity.
  - refine (proj1 (run_discards_bot_and_hidden_events bot
                     (holding [echo] edited) 1%positive edited [] _ _)).
    + reflexivity.
    + right. exists (VBool true). split; reflexivity.
Defined.

(** Of three plugins, the two for messages are invoked for a message. *)
Lemma process_event_invokes_the_matching_plugins_witness :
  exists st' new,
    Nimbus.process_event bot 1%positive (holding [echo; reactions; uptime] message)
    = (Return tt, st')
    /\ executor st' = new
    /\ map fn new = [echo; uptime]
    /\ length new = 2.
Proof.
  destruct (process_event_invokes_the_matching_plugins bot
              (holding [echo; reactions; uptime] message) 1%positive message
              eq_refl)
    as (res & st' & new & Hrun & Hex & Hfn & Hlen & _ & _ & Hres).
  rewrite Hres in Hrun by (eexists; reflexivity).
  exists st', new. repeat split; assumption.
Defined.








(** Of three classes, the second of which fails to build, two are loaded,
    and two are reported. *)
Lemma failed_construction_is_skipped_and_loading_goes_on_witness :
  construct broken_class [bot] = Raise (OtherError "ValueError" "bad settings")
  /\ exists st',
       Nimbus.load_plugins env3 bot "plugins" initial = (Return tt, st')
       /\ length (plugins st') = 2
       /\ last (log st') = Some (Info (Text "Loaded 2 plugins!"))
       /\ (Nimbus.register_plugin bot broken_class st').1 = Return false.
Proof.
  split; [reflexivity|].
  destruct (failed_construction_is_skipped_and_loading_goes_on env3 bot
              "plugins" initial)
    as ((res & st' & Hload & _ & Hlen & Hok) & Hskip & _).
  destruct (Hok eq_refl) as [-> Hlast].
  destruct (Hskip broken_class _ st' eq_refl) as (st'' & Hreg & _).
  exists st'. split; [exact Hload|]. split; [exact (Hlen eq_refl)|].
  split; [exact Hlast|]. by rewrite Hreg.
Defined.





End Samples.

(** ** Start-up *)

Section Startup.

Variable env : environment.

(** The state [__init__] has reached when it checks the token. *)
Lemma init_checks (config_name : string) (config : dict) (icon : string)
    (st : state) :
  config_file env config_name = Some config ->
  Nimbus.get_default config "icon_emoji" (VStr "cloud") = VStr icon ->
  let st0 := set_plugins (fun _ => [])
               (set_executor (fun _ => [])
                  (set_log (fun l => l ++ [Info (Text "Initializing Nimbus instance...")])
                     st)) in
  Nimbus.init env config_name st
  = (if negb (truthy (get config "token"))
     then raise (SystemExit "Need an authorization token.")
     else if negb (rtm_connect env)
     then raise (SystemExit "Can't connect to Slack.")
     else
       log_info (Text "Successfully authenticated with Slack!") ;;;
       match Nimbus.get_default config "plugin_directory" (VStr "plugins") with
       | VStr plugin_directory =>
           if negb (isdir env plugin_directory)
           then raise (SystemExit "The specified plugin directory is not a directory!")
           else if negb (exists_ env plugin_directory)
           then raise (SystemExit "The specified plugin directory does not exist!")
           else
             (if truthy (debug_mode (More.configured config icon))
              then log_info (Text "Debug mode is enabled!")
              else ret tt) ;;;
             Nimbus.load_plugins env (More.configured config icon) plugin_directory ;;;
             ret (More.configured config icon)
       | _ => raise (TypeError "the plugin directory is not a string")
       end) st0.
Proof.
  intros Hconfig Hicon st0. unfold Nimbus.init, Nimbus.get_config.
  unfold bind at 1, log_info at 1, modify at 1.
  unfold bind at 1. rewrite Hconfig. cbn [ret].
  unfold bind at 1. rewrite Hicon. cbn [ret].
  unfold bind at 1, modify at 1. unfold bind at 1, modify at 1.
  reflexivity.
Qed.

Lemma init_unreadable (config_name : string) (st : state) :
  config_file env config_name = None ->
  Nimbus.init env config_name st
  = (Raise (SystemExit "Couldn't open configuration file"),
     set_log (fun l => l ++ [Info (Text "Initializing Nimbus instance...")]) st).
Proof.
  intros Hconfig. unfold Nimbus.init, Nimbus.get_config.
  unfold bind at 1, log_info at 1, modify at 1.
  unfold bind at 1. by rewrite Hconfig.
Qed.

Lemma init_bad_icon (config_name : string) (config : dict) (st : state) :
  config_file env config_name = Some config ->
  (forall icon, Nimbus.get_default config "icon_emoji" (VStr "cloud") ≠ VStr icon) ->
  Nimbus.init env config_name st
  = (Raise (TypeError "cannot concatenate 'str' and another object"),
     set_log (fun l => l ++ [Info (Text "Initializing Nimbus instance...")]) st).
Proof.
  intros Hconfig Hicon. unfold Nimbus.init, Nimbus.get_config.
  unfold bind at 1, log_info at 1, modify at 1.
  unfold bind at 1. rewrite Hconfig. cbn [ret]. unfold bind at 1.
  destruct (Nimbus.get_default config "icon_emoji" (VStr "cloud")) as [| | |icon| | |];
    try reflexivity.
  by destruct (Hicon icon).
Qed.

(** X1.  When [__init__] returns, every start-up check has passed: the
    configuration file could be read, its [icon_emoji] (or the default) is a
    string, the token is true, the connection is up, the plugin directory
    (the configured one, or ['plugins']) is a string that names an existing
    directory, and every module of that directory imported.  The bot it
    returns has the configured settings, each missing one replaced by its
    default and the icon put between colons, and its collection holds the
    instances built from the classes of that directory, whatever the
    collection held before. *)
Theorem init_returns_after_every_check (config_name : string) (st : state)
    (bot : settings) (st' : state) :
  Nimbus.init env config_name st = (Return bot, st') ->
  exists config icon plugin_directory,
    config_file env config_name = Some config
    /\ Nimbus.get_default config "icon_emoji" (VStr "cloud") = VStr icon
    /\ truthy (get config "token") = true
    /\ rtm_connect env = true
    /\ Nimbus.get_default config "plugin_directory" (VStr "plugins")
       = VStr plugin_directory
    /\ isdir env plugin_directory = true
    /\ exists_ env plugin_directory = true
    /\ Spec.imports env plugin_directory (listdir env plugin_directory) = true
    /\ bot = More.configured config icon
    /\ plugins st'
       = Spec.loaded bot
           (Spec.discovered env plugin_directory (listdir env plugin_directory)).
Proof.
  intros Hinit.
  destruct (config_file env config_name) as [config|] eqn:Hconfig;
    [|by rewrite (init_unreadable _ _ Hconfig) in Hinit].
  destruct (Nimbus.get_default config "icon_emoji" (VStr "cloud"))
    as [| | |icon| | |] eqn:Hicon;
    try (rewrite (init_bad_icon _ _ _ Hconfig) in Hinit; [done|];
         intros icon'; by rewrite Hicon).
  rewrite (init_checks _ _ _ _ Hconfig Hicon) in Hinit. cbn zeta in Hinit.
  destruct (truthy (get config "token")) eqn:Htoken; [|done].
  destruct (rtm_connect env) eqn:Hconnect; [|done].
  cbn [negb] in Hinit.
  unfold bind at 1, log_info at 1, modify at 1 in Hinit.
  destruct (Nimbus.get_default config "plugin_directory" (VStr "plugins"))
    as [| | |plugin_directory| | |] eqn:Hdir; try done.
  destruct (isdir env plugin_directory) eqn:Hisdir; [|done].
  destruct (exists_ env plugin_directory) eqn:Hexists; [|done].
  cbn [negb] in Hinit.
  set (self0 := More.configured config icon) in *.
  match type of Hinit with
  | bind _ _ ?st0 = _ => set (st_debug := st0) in Hinit
  end.
  assert (Hdebug : exists st1,
    (if truthy (debug_mode self0)
     then log_info (Text "Debug mode is enabled!") else ret tt) st_debug
    = (Return tt, st1) /\ plugins st1 = []).
  { destruct (truthy (debug_mode self0)); eexists; by split. }
  destruct Hdebug as (st1 & Hdebug & Hpl1).
  rewrite (bind_Return _ _ _ _ _ Hdebug) in Hinit.
  destruct (load_plugins_run env self0 plugin_directory st1)
    as (res & st2 & Hload & Hpl & _ & _ & Hko).
  unfold bind in Hinit. rewrite Hload in Hinit.
  destruct res as [[]|e]; [|done].
  injection Hinit as <- <-.
  exists config, icon, plugin_directory.
  rewrite Hpl1 in Hpl. cbn [app] in Hpl.
  repeat split; try done.
  destruct (Spec.imports env plugin_directory (listdir env plugin_directory));
    [done|]. by destruct (Hko eq_refl).
Qed.


(** X3.  An [icon_emoji] that is not a string (a number, or a key left
    empty in the file) ends [__init__] with [TypeError], before the token
    is looked at and before anything is loaded: the concatenation with the
    colons comes first. *)
Theorem init_needs_a_string_icon (config_name : string) (config : dict)
    (v : value) (st : state) :
  config_file env config_name = Some config ->
  config !! "icon_emoji" = Some v ->
  (forall icon, v ≠ VStr icon) ->
  exists m st',
    Nimbus.init env config_name st = (Raise (TypeError m), st')
    /\ constructions st' = constructions st
    /\ plugins st' = plugins st
    /\ api_calls st' = api_calls st.
Proof.
  intros Hconfig Hv Hicon.
  rewrite (init_bad_icon _ _ st Hconfig).
  - eexists _, _. by repeat split.
  - unfold Nimbus.get_default. by rewrite Hv.
Qed.

End Startup.

(** The loading of plugins asks the environment for the listing of the
    directory and for its modules only. *)
Lemma load_files_with_exists (env : environment) (answer : string -> bool)
    (self : settings) (plugin_directory : string) (files : list string) :
  forall n st,
    Nimbus.load_files (More.with_exists env answer) self plugin_directory files n st
    = Nimbus.load_files env self plugin_directory files n st.
Proof.
  induction files as [|f rest IH]; intros n st; [reflexivity|].
  cbn [Nimbus.load_files]. destruct (splitext f) as [module_name extension].
  destruct (String.eqb extension ".py"); [|apply IH].
  cbn [More.with_exists import_module].
  destruct (import_module env (plugin_directory +:+ "." +:+ module_name));
    [|reflexivity].
  unfold bind. destruct (Nimbus.register_classes _ _ _ _) as [[m|e] st1];
    [apply IH | reflexivity].
Qed.

Lemma load_plugins_with_exists (env : environment) (answer : string -> bool)
    (self : settings) (plugin_directory : string) (st : state) :
  Nimbus.load_plugins (More.with_exists env answer) self plugin_directory st
  = Nimbus.load_plugins env self plugin_directory st.
Proof.
  unfold Nimbus.load_plugins, bind, log_info, modify.
  cbn [More.with_exists listdir]. by rewrite load_files_with_exists.
Qed.

(** X4.  The second check of the plugin directory never decides: in a file
    system, where what [os.path.isdir] accepts exists, [__init__] takes the
    same course whatever [os.path.exists] answers for the paths that are
    not directories, so that a missing directory is reported as not being
    a directory. *)
Theorem init_never_reports_a_missing_directory (env : environment)
    (answer : string -> bool) (config_name : string) (st : state) :
  (forall d, isdir env d = true -> exists_ env d = true) ->
  (forall d, isdir env d = true -> answer d = true) ->
  Nimbus.init (More.with_exists env answer) config_name st
  = Nimbus.init env config_name st
  /\ (forall config icon plugin_directory,
        config_file env config_name = Some config ->
        Nimbus.get_default config "icon_emoji" (VStr "cloud") = VStr icon ->
        truthy (get config "token") = true ->
        rtm_connect env = true ->
        Nimbus.get_default config "plugin_directory" (VStr "plugins")
        = VStr plugin_directory ->
        exists_ env plugin_directory = false ->
        (Nimbus.init env config_name st).1
        = Raise (SystemExit "The specified plugin directory is not a directory!")).
Proof.
  intros Hfs Hanswer. split; cycle 1.
  { intros config icon plugin_directory Hconfig Hicon Htoken Hconnect Hdir Hmissing.
    rewrite (init_checks env _ _ _ _ Hconfig Hicon). cbn zeta.
    rewrite Htoken, Hconnect. cbn [negb].
    unfold bind, log_info, modify. rewrite Hdir.
    destruct (isdir env plugin_directory) eqn:Hisdir; [|reflexivity].
    rewrite (Hfs _ Hisdir) in Hmissing. discriminate Hmissing. }
  destruct (config_file env config_name) as [config|] eqn:Hconfig;
    [|by rewrite !init_unreadable].
  destruct (Nimbus.get_default config "icon_emoji" (VStr "cloud"))
    as [| | |icon| | |] eqn:Hicon;
    try (rewrite !(init_bad_icon _ _ config); try done;
         intros icon'; by rewrite Hicon).
  rewrite (init_checks env _ _ _ _ Hconfig Hicon).
  rewrite (init_checks (More.with_exists env answer) _ config icon _ Hconfig Hicon).
  cbn zeta. cbn [More.with_exists rtm_connect isdir exists_].
  generalize (set_plugins (fun _ : list plugin => [])
                (set_executor (fun _ : list future => [])
                   (set_log (fun l => l ++ [Info (Text "Initializing Nimbus instance...")])
                      st))).
  intros st0.
  destruct (negb (truthy (get config "token"))); [reflexivity|].
  destruct (negb (rtm_connect env)); [reflexivity|].
  unfold bind, log_info, modify.
  destruct (Nimbus.get_default config "plugin_directory" (VStr "plugins"))
    as [| | |plugin_directory| | |]; try reflexivity.
  destruct (isdir env plugin_directory) eqn:Hisdir; [|reflexivity].
  rewrite (Hfs _ Hisdir), (Hanswer _ Hisdir). cbn [negb].
  destruct (truthy (debug_mode (More.configured config icon)));
    cbn [ret]; by rewrite load_plugins_with_exists.
Qed.

(** ** Discovery *)

Lemma append_empty (s : string) : s +:+ EmptyString = s.
Proof.
  induction s as [|c s IH]; [reflexivity|].
  change (String c (s +:+ EmptyString) = String c s). by rewrite IH.
Qed.

Lemma substring_all (s : string) : substring 0 (String.length s) s = s.
Proof. induction s as [|c s IH]; [reflexivity|]. cbn. by rewrite IH. Qed.

Lemma substring_split (s : string) :
  forall n, n <= String.length s ->
  substring 0 n s +:+ substring n (String.length s - n) s = s.
Proof.
  induction s as [|c s IH]; intros n Hn.
  - cbn in Hn. by replace n with 0 by lia.
  - destruct n as [|n].
    + rewrite Nat.sub_0_r, substring_all. reflexivity.
    + cbn in Hn. cbn [substring String.length Nat.sub].
      change (String c (substring 0 n s +:+ substring n (String.length s - n) s)
              = String c s).
      f_equal. apply IH. lia.
Qed.

(** The last dot: what comes before it, and the dotless rest after it. *)
Lemma rfind_dot_split (s : string) :
  forall i j, rfind_dot s i = Some j ->
  exists rest,
    i <= j /\ j - i < String.length s
    /\ substring (j - i) (String.length s - (j - i)) s = String "."%char rest
    /\ More.dotless rest = true.
Proof.
  induction s as [|c s IH]; intros i j H; [done|].
  cbn [rfind_dot] in H.
  destruct (rfind_dot s (S i)) as [j'|] eqn:Hrest.
  - injection H as ->. destruct (IH _ _ Hrest) as (rest & Hle & Hlt & Hsub & Hdot).
    exists rest. replace (j - i) with (S (j - S i)) by lia.
    cbn [String.length substring Nat.sub]. repeat split; try done; lia.
  - destruct (Ascii.eqb_spec c "."%char) as [->|Hc]; [|done].
    injection H as <-. exists s. rewrite Nat.sub_diag.
    cbn [String.length substring Nat.sub]. rewrite substring_all.
    repeat split; try done; try lia.
    clear IH. revert i Hrest. induction s as [|c s IHs]; intros i Hrest; [done|].
    cbn [rfind_dot] in Hrest. cbn [More.dotless].
    destruct (rfind_dot s (S (S i))) eqn:Hs; [done|].
    destruct (Ascii.eqb c "."%char); [done|]. cbn. by apply (IHs (S i)).
Qed.

(** X5.  [os.path.splitext], as [load_plugins] uses it on a file name,
    loses nothing: the root followed by the extension is the name.  The
    extension is empty or is one dot followed by characters that are not
    dots, so that only the last extension of a name counts and a name made
    of dots and one extension, as ['.py'], has none. *)
Theorem splitext_splits_at_the_last_dot (f : string) :
  (splitext f).1 +:+ (splitext f).2 = f
  /\ ((splitext f).2 = EmptyString
      \/ exists rest, (splitext f).2 = String "."%char rest
                      /\ More.dotless rest = true)
  /\ (More.dotless f = true -> splitext f = (f, EmptyString))
  /\ (forall ext, More.dotless ext = true ->
        splitext (String "."%char ext) = (String "."%char ext, EmptyString)).
Proof.
  assert (Hnone : forall s i, More.dotless s = true -> rfind_dot s i = None).
  { induction s as [|c s IH]; intros i Hs; [done|]. cbn in *.
    apply andb_true_iff in Hs as [Hc Hs]. rewrite (IH _ Hs).
    by destruct (Ascii.eqb c "."%char). }
  split; [|split; [|split]].
  - unfold splitext. destruct (rfind_dot f 0) as [j|] eqn:Hj.
    + destruct (has_non_dot f j); cbn [fst snd].
      * destruct (rfind_dot_split _ _ _ Hj) as (rest & _ & Hlt & _).
        apply substring_split. lia.
      * apply append_empty.
    + apply append_empty.
  - unfold splitext. destruct (rfind_dot f 0) as [j|] eqn:Hj; [|by left].
    destruct (has_non_dot f j); [|by left]. right. cbn [snd].
    destruct (rfind_dot_split _ _ _ Hj) as (rest & _ & _ & Hsub & Hdot).
    rewrite Nat.sub_0_r in Hsub. by exists rest.
  - intros Hf. unfold splitext. by rewrite (Hnone _ _ Hf).
  - intros ext Hext. unfold splitext. cbn [rfind_dot].
    rewrite (Hnone _ _ Hext). reflexivity.
Qed.

Section Discovery.

Variable env : environment.
Variable self : settings.
Variable plugin_directory : string.

(** X6.  [load_plugins] looks only at the files of the directory whose
    extension is ['.py'], compared as it is: the other files are neither
    imported nor counted, and loading a directory does what loading its
    ['.py'] files alone does. *)
Theorem load_files_skips_what_is_not_python (files : list string) (n : nat)
    (st : state) :
  Nimbus.load_files env self plugin_directory files n st
  = Nimbus.load_files env self plugin_directory (List.filter More.is_py files) n st.
Proof.
  revert n st. induction files as [|f rest IH]; intros n st; [reflexivity|].
  cbn [Nimbus.load_files List.filter].
  change (More.is_py f) with (String.eqb (splitext f).2 ".py").
  destruct (splitext f) as [module_name extension] eqn:Hsplit. cbn [snd].
  destruct (String.eqb extension ".py") eqn:Hpy; [|apply IH].
  cbn [Nimbus.load_files]. rewrite Hsplit, Hpy.
  destruct (import_module env (plugin_directory +:+ "." +:+ module_name));
    [|reflexivity].
  unfold bind. destruct (Nimbus.register_classes _ _ _ _) as [[m|e] st1];
    [apply IH | reflexivity].
Qed.

Lemma classes_of_declared (module_path : string) (members : list (string * member))
    (klass : plugin_class) :
  In klass (Spec.classes_of
              (List.filter (fun nm => Nimbus.class_filter module_path nm.2) members)) ->
  exists name, In (name, AClass module_path klass) members.
Proof.
  induction members as [|[name m] rest IH]; [done|].
  cbn [List.filter snd]. destruct m as [md c| |]; cbn [Nimbus.class_filter].
  - destruct (String.eqb_spec md module_path) as [->|Hne].
    + cbn [Spec.classes_of]. intros [<-|Hin].
      * exists name. by left.
      * destruct (IH Hin) as [name' Hin']. exists name'. by right.
    + intros Hin. destruct (IH Hin) as [name' Hin']. exists name'. by right.
  - intros Hin. destruct (IH Hin) as [name' Hin']. exists name'. by right.
  - intros Hin. destruct (IH Hin) as [name' Hin']. exists name'. by right.
Qed.

Lemma discovered_declared (files : list string) (klass : plugin_class) :
  In klass (Spec.discovered env plugin_directory files) ->
  exists f members name,
    In f files
    /\ More.is_py f = true
    /\ import_module env (plugin_directory +:+ "." +:+ (splitext f).1)
       = Return members
    /\ In (name, AClass (plugin_directory +:+ "." +:+ (splitext f).1) klass) members.
Proof.
  induction files as [|f rest IH]; [done|]. cbn [Spec.discovered].
  assert (Hrest : In klass (Spec.discovered env plugin_directory rest) ->
    exists f0 members name,
      In f0 (f :: rest)
      /\ More.is_py f0 = true
      /\ import_module env (plugin_directory +:+ "." +:+ (splitext f0).1)
         = Return members
      /\ In (name, AClass (plugin_directory +:+ "." +:+ (splitext f0).1) klass)
            members).
  { intros Hin. destruct (IH Hin) as (f0 & members & name & Hf0 & Hrest).
    exists f0, members, name. split; [by right | exact Hrest]. }
  destruct (String.eqb (splitext f).2 ".py") eqn:Hpy; [|exact Hrest].
  destruct (import_module env (plugin_directory +:+ "." +:+ (splitext f).1))
    as [members|e] eqn:Himport; [|done].
  intros Hin. apply in_app_or in Hin as [Hin|Hin]; [|by apply Hrest].
  destruct (classes_of_declared _ _ _ Hin) as [name Hname].
  exists f, members, name. repeat split; try done. by left.
Qed.

(** X7.  Every class that [load_plugins] calls is a plugin class declared in
    a module of the directory: it is a member of the module imported for a
    ['.py'] file of the listing, and its [__module__] is that module.  A
    class that a plugin module merely imports, as [CommandPlugin] in
    uptime.py, is never instantiated. *)
Theorem load_files_calls_only_classes_of_the_directory (files : list string)
    (n : nat) (st : state) (c : construction) :
  In c (drop (length (constructions st))
          (constructions
             (Nimbus.load_files env self plugin_directory files n st).2)) ->
  exists f members name klass,
    In f files
    /\ (splitext f).2 = ".py"
    /\ import_module env (plugin_directory +:+ "." +:+ (splitext f).1)
       = Return members
    /\ In (name, AClass (plugin_directory +:+ "." +:+ (splitext f).1) klass) members
    /\ c = Construction (cls_name klass) 1.
Proof.
  destruct (load_files_run env self plugin_directory files n st)
    as (res & st' & Hload & _ & Hcon & _).
  rewrite Hload. cbn [snd]. rewrite Hcon, drop_app_length.
  intros Hin. apply in_map_iff in Hin as (klass & <- & Hklass).
  destruct (discovered_declared _ _ Hklass) as (f & members & name & Hf & Hpy & Himp & Hm).
  exists f, members, name, klass. repeat split; try done.
  by apply String.eqb_eq.
Qed.

Lemma register_classes_log (members : list (string * member)) :
  forall (n : nat) (st : state),
    log (Nimbus.register_classes self members n st).2
    = log st ++ map (More.load_record self) (Spec.classes_of members).
Proof.
  induction members as [|[name m] rest IH]; intros n st.
  - cbn. by rewrite app_nil_r.
  - destruct m as [md klass| |]; cbn [Nimbus.register_classes Spec.classes_of];
      [|apply IH..].
    cbn [map]. unfold More.load_record at 1.
    destruct (construct klass [self]) as [p|e] eqn:Hc.
    + returns (register_plugin_loaded self _ _ st Hc).
      rewrite IH. cbn. by rewrite <- app_assoc.
    + returns (register_plugin_skipped self _ _ st Hc).
      rewrite IH. cbn. by rewrite <- app_assoc.
Qed.

Lemma load_files_log (files : list string) :
  forall (n : nat) (st : state),
    log (Nimbus.load_files env self plugin_directory files n st).2
    = log st ++ map (More.load_record self)
                    (Spec.discovered env plugin_directory files).
Proof.
  induction files as [|f rest IH]; intros n st.
  - cbn. by rewrite app_nil_r.
  - cbn [Nimbus.load_files Spec.discovered].
    destruct (splitext f) as [module_name extension]. cbn [fst snd].
    destruct (String.eqb extension ".py"); [|apply IH].
    destruct (import_module env (plugin_directory +:+ "." +:+ module_name))
      as [members|e]; [|cbn; by rewrite app_nil_r].
    set (classes := List.filter _ members).
    destruct (register_classes_run self classes n st) as (st1 & Hrun & _).
    pose proof (register_classes_log classes n st) as Hlog1.
    rewrite Hrun in Hlog1. cbn [snd] in Hlog1.
    returns Hrun. rewrite IH, Hlog1, map_app. by rewrite <- app_assoc.
Qed.

(** X8.  The log of [load_plugins] tells the whole story of the loading:
    one record that opens it and names the directory, then one record for
    each class discovered, in the order of discovery, a success at level
    INFO or a failure at level ERROR with the name of the class, and, when
    no import raised, one record that closes it with the number of classes
    that could be built. *)
Theorem load_plugins_logs_every_class (st : state) :
  let classes :=
    Spec.discovered env plugin_directory (listdir env plugin_directory) in
  log (Nimbus.load_plugins env self plugin_directory st).2
  = log st
    ++ [Info (Text ("Loading plugins from directory '" +:+ plugin_directory
                     +:+ "'..."))]
    ++ map (More.load_record self) classes
    ++ (if Spec.imports env plugin_directory (listdir env plugin_directory)
        then [Info (Text ("Loaded " +:+ pretty (length (Spec.loaded self classes))
                           +:+ " plugins!"))]
        else []).
Proof.
  intros classes. unfold Nimbus.load_plugins, bind at 1, log_info at 1, modify.
  set (st0 := set_log _ st).
  destruct (load_files_run env self plugin_directory
              (listdir env plugin_directory) 0 st0)
    as (res & st1 & Hload & _ & _ & Hok & Hko).
  pose proof (load_files_log (listdir env plugin_directory) 0 st0) as Hlog.
  rewrite Hload in Hlog. cbn [snd] in Hlog. fold classes in Hlog, Hok.
  destruct (Spec.imports env plugin_directory (listdir env plugin_directory)).
  - rewrite (Hok eq_refl) in Hload. returns Hload.
    cbn. rewrite Hlog. unfold st0. cbn. by rewrite <- !app_assoc.
  - destruct (Hko eq_refl) as [e ->]. rewrite (bind_Raise _ _ _ _ _ Hload).
    cbn [snd]. rewrite Hlog. unfold st0. cbn. by rewrite app_nil_r, <- !app_assoc.
Qed.

End Discovery.

(** ** What the loop leaves alone *)

Section Loop.

Variable self : settings.

Lemma invoked_slept (e : dict) (l : list plugin) :
  forall st, slept (foldl (Spec.invoked self e) st l) = slept st.
Proof.
  induction l as [|p l IH]; intros st; [reflexivity|].
  cbn [foldl]. by rewrite IH.
Qed.

(** What one pass of the loop of [run] leaves of the posting interface, of
    the sleeps and of the log. *)
Lemma run_event_quiet (event : loc) (e : dict) (st : state) :
  heap st !! event = Some e ->
  api_calls (Nimbus.run_event self event st).2 = api_calls st
  /\ slept (Nimbus.run_event self event st).2 = slept st
  /\ log (Nimbus.run_event self event st).2
     = log st ++ (if Spec.survives e then More.debug_record self e else []).
Proof.
  intros Hev. unfold Nimbus.run_event, Spec.survives.
  reads Hev.
  destruct (eq_str (get e "subtype") "bot_message");
    [cbn; by rewrite app_nil_r|].
  reads Hev.
  destruct (truthy (get e "hidden")); [cbn; by rewrite app_nil_r|].
  cbn [negb andb].
  assert (Hdebug : api_calls (Spec.debugged self e st) = api_calls st
                   /\ slept (Spec.debugged self e st) = slept st
                   /\ log (Spec.debugged self e st)
                      = log st ++ More.debug_record self e).
  { unfold Spec.debugged, More.debug_record.
    destruct (truthy (debug_mode self)); cbn; by rewrite ?app_nil_r. }
  destruct Hdebug as (Hapi & Hslept & Hlog).
  destruct (e !! "type") as [ty|] eqn:Hty.
  - rewrite (process_event_typed self _ _ _ _ Hev Hty). cbn [snd].
    destruct (invoked_all self e (Spec.reacting ty (plugins st))
                (Spec.debugged self e st))
      as (new & _ & _ & _ & Hapi' & Hlog' & _).
    rewrite Hapi', Hlog', invoked_slept. by repeat split.
  - rewrite (process_event_untyped self _ _ _ Hev Hty). by repeat split.
Qed.








(** X13.  In debug mode the loop of [run] writes each event that passes its
    filters to the log, once, as [process_event] starts on it, also when
    the event then makes [process_event] raise; the events it filters out
    are not written, and out of debug mode it writes nothing. *)
Theorem run_event_logs_in_debug_mode (event : loc) (e : dict) (st : state) :
  heap st !! event = Some e ->
  log (Nimbus.run_event self event st).2
  = log st ++ (if Spec.survives e && truthy (debug_mode self)
               then [Info (Mapping e)] else []).
Proof.
  intros Hev. destruct (run_event_quiet event e st Hev) as (_ & _ & Hlog).
  rewrite Hlog. unfold More.debug_record.
  by destruct (Spec.survives e), (truthy (debug_mode self)).
Qed.

(** X14.  The filters of [run] drop nothing else: an event whose [subtype]
    is not the string ['bot_message'] (it may be missing, or another
    subtype) and whose [hidden] field is missing or false is handed to
    [process_event], and what the loop does with it is what
    [process_event] does. *)
Theorem run_keeps_every_other_event (event : loc) (e : dict) (st : state) :
  heap st !! event = Some e ->
  e !! "subtype" ≠ Some (VStr "bot_message") ->
  (forall v, e !! "hidden" = Some v -> truthy v = false) ->
  Nimbus.run_event self event st = Nimbus.process_event self event st
  /\ Spec.survives e = true.
Proof.
  intros Hev Hsub Hhid.
  assert (Hs1 : eq_str (get e "subtype") "bot_message" = false).
  { unfold get. destruct (e !! "subtype") as [[| | |s| | |]|]; try reflexivity.
    cbn. apply String.eqb_neq. intros ->. by apply Hsub. }
  assert (Hs2 : truthy (get e "hidden") = false).
  { unfold get. destruct (e !! "hidden") as [v|]; [by apply Hhid | reflexivity]. }
  split; [|unfold Spec.survives; by rewrite Hs1, Hs2].
  unfold Nimbus.run_event. reads Hev. rewrite Hs1. reads Hev. by rewrite Hs2.
Qed.

End Loop.

(** ** The order of dispatch *)




(** ** The command lookup and a growing collection *)

Lemma get_command_from_app (trigger : string) (l1 l2 : list plugin) :
  Nimbus.get_command_from trigger (l1 ++ l2)
  = match Nimbus.get_command_from trigger l1 with
    | Some p => Some p
    | None => Nimbus.get_command_from trigger l2
    end.
Proof.
  induction l1 as [|p l1 IH]; [reflexivity|].
  cbn [app Nimbus.get_command_from].
  by destruct (Nimbus.first_trigger trigger p (triggers p)).
Qed.

(** X16.  Registering more plugins never changes what a trigger already
    resolves to: over a collection that has grown at its end, [get_command]
    returns the plugin it returned before, and only a trigger that resolved
    to nothing is looked up among the plugins added. *)
Theorem get_command_keeps_its_answers (st : state) (added : list plugin)
    (trigger : string) :
  (Nimbus.get_command trigger (set_plugins (fun l => l ++ added) st)).1
  = match (Nimbus.get_command trigger st).1 with
    | Return (Some p) => Return (Some p)
    | _ => (Nimbus.get_command trigger (set_plugins (fun _ => added) st)).1
    end.
Proof.
  unfold Nimbus.get_command, bind, gets, ret. cbn.
  rewrite List.filter_app, get_command_from_app.
  by destruct (Nimbus.get_command_from trigger
                 (List.filter is_CommandPlugin (plugins st))).
Qed.

(** ** The reply of [Uptime] *)

(** X9.  [Uptime.on_command] never touches the event it is given and, of
    its draft, sets only [text] and [mrkdwn_in].  It raises [KeyError]
    exactly when the event has no [text], and nothing else.  It answers
    exactly when the [text] is there and false (a bare command): then it
    makes one call, ['chat.postMessage'] with the draft as it has just
    left it, whose [text] gives the uptime; for a command with arguments
    it neither posts nor changes the draft. *)
Theorem uptime_answers_the_bare_command_only (uptime : string)
    (event response : dict) :
  let r := Uptime.on_command uptime event response in
  event_after r = event
  /\ (forall k, k ≠ "text" -> k ≠ "mrkdwn_in" ->
       response_after r !! k = response !! k)
  /\ (raised r = Some (KeyError "text") <-> event !! "text" = None)
  /\ (raised r = None <-> is_Some (event !! "text"))
  /\ ((exists args, event !! "text" = Some args /\ truthy args = false) ->
      sent r = [ApiCall "chat.postMessage" (response_after r)]
      /\ response_after r !! "text"
         = Some (VStr ("Bot Uptime: `" +:+ uptime +:+ "`"))
      /\ response_after r !! "mrkdwn_in" = Some (VList [VStr "text"]))
  /\ (~ (exists args, event !! "text" = Some args /\ truthy args = false) ->
      sent r = [] /\ response_after r = response).
Proof.
  intros r. subst r. unfold Uptime.on_command.
  destruct (event !! "text") as [args|] eqn:Htext.
  - destruct (truthy args) eqn:Hargs; cbn.
    + split; [done|]. split; [done|]. split; [done|].
      split; [split; [by eexists | done]|].
      split; [by intros (a & [= <-] & Ha); congruence | done].
    + split; [done|]. split.
      { intros k Hk1 Hk2. unfold update. rewrite lookup_union_r; [done|].
        by rewrite lookup_insert_ne, lookup_singleton_ne. }
      split; [done|]. split; [split; [by eexists | done]|].
      split.
      * intros _. split; [done|]. unfold update. split.
        -- apply lookup_union_Some_l. apply lookup_insert_eq.
        -- apply lookup_union_Some_l.
           rewrite lookup_insert_ne by done. apply lookup_singleton_eq.
      * intros Hno. destruct Hno. by exists args.
  - cbn. split; [done|]. split; [done|]. split; [done|].
    split; [split; [done | by intros []]|].
    split; [by intros (a & Ha & _) | done].
Qed.

(** ** What a worker touches *)



(** ** The script *)



(** ** More sample runs *)

Section MoreSamples.

Import Example.

(** The sample start-up returns, so every check passed. *)
Lemma init_returns_after_every_check_witness :
  exists config icon plugin_directory,
    config_file env "nimbus.yml" = Some config
    /\ icon = "cloud"
    /\ plugin_directory = "plugins"
    /\ truthy (get config "token") = true
    /\ bot = More.configured config icon.
Proof.
  assert (Hinit : Nimbus.init env "nimbus.yml" initial
                  = (Return bot, (Nimbus.init env "nimbus.yml" initial).2))
    by (vm_compute; reflexivity).
  destruct (init_returns_after_every_check env "nimbus.yml" initial bot _ Hinit)
    as (config & icon & dir & Hconfig & Hicon & Htoken & _ & Hdir & _ & _ & _ & Hbot & _).
  exists config, icon, dir. injection Hconfig as <-.
  injection Hicon as <-. injection Hdir as <-. by repeat split.
Defined.


(** A numeric icon ends the start-up with a [TypeError]. *)
Lemma init_needs_a_string_icon_witness :
  exists m st',
    Nimbus.init More.env_numeric_icon "nimbus.yml" initial
    = (Raise (TypeError m), st').
Proof.
  destruct (init_needs_a_string_icon More.env_numeric_icon "nimbus.yml"
              {[ "token" := VStr "xoxb"; "icon_emoji" := VInt 3 ]} (VInt 3)
              initial eq_refl eq_refl)
    as (m & st' & Hinit & _).
  - intros icon H. discriminate H.
  - by exists m, st'.
Defined.

(** A directory that does not exist is reported as not being one. *)
Lemma init_never_reports_a_missing_directory_witness :
  (Nimbus.init More.env_missing_directory "nimbus.yml" initial).1
  = Raise (SystemExit "The specified plugin directory is not a directory!").
Proof.
  refine (proj2 (init_never_reports_a_missing_directory
                   More.env_missing_directory (String.eqb "plugins")
                   "nimbus.yml" initial _ _)
            {[ "token" := VStr "xoxb"; "plugin_directory" := VStr "missing" ]}
            "cloud" "missing" eq_refl eq_refl eq_refl eq_refl eq_refl eq_refl).
  - intros d Hd. cbn in *. rewrite Hd. reflexivity.
  - intros d Hd. exact Hd.
Defined.

(** The one class called for the sample directory is declared in
    uptime.py. *)
Lemma load_files_calls_only_classes_of_the_directory_witness :
  exists f members name klass,
    In f ["uptime.py"; "README"]
    /\ (splitext f).2 = ".py"
    /\ import_module env ("plugins" +:+ "." +:+ (splitext f).1) = Return members
    /\ In (name, AClass ("plugins" +:+ "." +:+ (splitext f).1) klass) members
    /\ Construction "Uptime" 1 = Construction (cls_name klass) 1.
Proof.
  apply (load_files_calls_only_classes_of_the_directory env bot "plugins"
           ["uptime.py"; "README"] 0 initial (Construction "Uptime" 1)).
  vm_compute. left. reflexivity.
Defined.


(** In debug mode a message is logged as it is dispatched. *)
Lemma run_event_logs_in_debug_mode_witness :
  log (Nimbus.run_event verbose_bot 1%positive (holding [echo] message)).2
  = [Info (Mapping message)].
Proof.
  exact (run_event_logs_in_debug_mode verbose_bot 1%positive message
           (holding [echo] message) eq_refl).
Defined.

(** A message without subtype and without [hidden] is processed. *)
Lemma run_keeps_every_other_event_witness :
  Nimbus.run_event bot 1%positive (holding [echo] message)
  = Nimbus.process_event bot 1%positive (holding [echo] message).
Proof.
  refine (proj1 (run_keeps_every_other_event bot 1%positive message
                   (holding [echo] message) eq_refl _ _)).
  - intros H. discriminate H.
  - intros v H. discriminate H.
Defined.



End MoreSamples.
